(** * Stay: a file system over one IndexedDB object store

    A shallow embedding of [stay.js].  The library keeps every file and
    directory marker as one record of the object store "files", keyed by
    its path, with one secondary index on the field [dir].

    Modelling decisions, all taken from the source:
    - a JavaScript string is a Rocq [string]; each character stands for
      one UTF-16 code unit below 256, so [String.length] is [.length];
    - an [async] function is a computation in the monad [M]: it threads
      the world (database handle, object store, wall clock, pending store
      faults, log of store calls) and either resolves with a value or
      rejects with an error object;
    - the store can fault where the source can observe it: when the
      database is opened, when [db.transaction] is called, and when a
      [get] request completes.  The world carries the faults still to
      come, one entry per such call;
    - [console.log] is not modelled. *)

From Stdlib Require Import String Ascii List ZArith Lia Bool.
From stdpp Require Import base decidable option list strings.

Local Open Scope string_scope.

(** ** JavaScript string primitives *)

Module Js.

Definition slash : ascii := "/"%char.

(** [a || b] on strings: the empty string is the only falsy one. *)
Definition or_else (a b : string) : string :=
  match a with
  | EmptyString => b
  | _ => a
  end.

(** [s.startsWith(t)] *)
Definition startsWith (s t : string) : bool := String.prefix t s.

(** [s.endsWith("/")] *)
Fixpoint endsWithSlash (s : string) : bool :=
  match s with
  | EmptyString => false
  | String c EmptyString => bool_decide (c = slash)
  | String _ s' => endsWithSlash s'
  end.

(** [s.replace(/\/+/g, "/")]: every maximal run of slashes becomes one
    slash.  A slash that is followed by another one is dropped. *)
Fixpoint collapseSlashes (s : string) : string :=
  match s with
  | EmptyString => EmptyString
  | String c s' =>
      if bool_decide (c = slash) then
        match s' with
        | String c' _ =>
            if bool_decide (c' = slash) then collapseSlashes s'
            else String c (collapseSlashes s')
        | EmptyString => String c EmptyString
        end
      else String c (collapseSlashes s')
  end.

(** [s.lastIndexOf("/")], [-1] when there is no slash.  [i] is the index
    of the first character of [s] in the whole string. *)
Fixpoint lastSlashFrom (i : Z) (s : string) : Z :=
  match s with
  | EmptyString => (-1)%Z
  | String c s' =>
      let r := lastSlashFrom (i + 1) s' in
      if (0 <=? r)%Z then r
      else if bool_decide (c = slash) then i else (-1)%Z
  end.

Definition lastIndexOfSlash (s : string) : Z := lastSlashFrom 0 s.

(** [s.substring(a, b)]: both indices are clamped to [0 .. s.length],
    and swapped when [a > b]. *)
Definition clamp (n : Z) (s : string) : nat :=
  Z.to_nat (Z.min (Z.max n 0) (Z.of_nat (String.length s))).

Definition substring (s : string) (a b : Z) : string :=
  let lo := Nat.min (clamp a s) (clamp b s) in
  let hi := Nat.max (clamp a s) (clamp b s) in
  String.substring lo (hi - lo) s.

(** [s.split(sep)] for a one-character separator: the pieces between
    the separators; never empty. *)
Fixpoint split (sep : ascii) (s : string) : list string :=
  match s with
  | EmptyString => [EmptyString]
  | String c s' =>
      if bool_decide (c = sep) then EmptyString :: split sep s'
      else
        match split sep s' with
        | piece :: rest => String c piece :: rest
        | [] => [String c EmptyString]
        end
  end.

(** [arr.join(sep)] *)
Definition join (sep : string) (arr : list string) : string :=
  String.concat sep arr.

(** [arr.pop()] as used by the source: only the popped value is kept;
    [None] stands for [undefined]. *)
Definition pop (arr : list string) : option string := last arr.

(** [arr.filter(Boolean)] on strings keeps the non-empty ones. *)
Definition filterBoolean (arr : list string) : list string :=
  List.filter (fun s => negb (String.eqb s EmptyString)) arr.

(** [c.toLowerCase()] on one code unit below 256: A-Z, and the Latin-1
    capitals U+00C0-U+00DE except the multiplication sign U+00D7. *)
Definition lowerChar (c : ascii) : ascii :=
  let n := nat_of_ascii c in
  if ((65 <=? n) && (n <=? 90))%nat then ascii_of_nat (n + 32)
  else if ((192 <=? n) && (n <=? 222) && negb (n =? 215))%nat
       then ascii_of_nat (n + 32)
  else c.

Fixpoint toLowerCase (s : string) : string :=
  match s with
  | EmptyString => EmptyString
  | String c s' => String (lowerChar c) (toLowerCase s')
  end.

(** [s.includes(t)] *)
Fixpoint includes (s t : string) : bool :=
  String.prefix t s ||
  match s with
  | EmptyString => false
  | String _ s' => includes s' t
  end.

End Js.

(** ** Path utilities of the source *)

(** [getDir]: collapse the slashes, cut at the last one; the empty result
    falls back to the root. *)
Definition getDir (path : string) : string :=
  let normalized := Js.collapseSlashes path in
  Js.or_else (Js.substring normalized 0 (Js.lastIndexOfSlash normalized)) "/".

Definition normalizePath (path : string) : string :=
  let path := if negb (Js.startsWith path "/") then "/" +:+ path else path in
  Js.collapseSlashes path.

Definition isDirectory (path : string) : bool := Js.endsWithSlash path.

(** ** Records of the object store *)

Module File.
(** The object that [writeFile] and [mkdir] put into the store. *)
Record t := mk {
  path : string;
  name : string;
  dir : string;
  content : string;
  size : nat;
  type : string;
  createdAt : string;
  updatedAt : string;
}.
End File.

Module Entry.
(** The metadata object that [listFiles], [getAllFiles] and [stat]
    build from a record: every field but [content] and [dir]. *)
Record t := mk {
  name : string;
  path : string;
  size : nat;
  type : string;
  createdAt : string;
  updatedAt : string;
}.
End Entry.

(** ** The object store "files"

    IndexedDB keeps the records of a store in ascending order of their
    key, here the path, compared code unit by code unit; a cursor walks
    them in that order.  The index "dir" walks the records with one value
    of [dir] in the order of their paths. *)

Module ObjectStore.

Definition t := list File.t.

Definition empty : t := [].

Fixpoint put (f : File.t) (s : t) : t :=
  match s with
  | [] => [f]
  | g :: s' =>
      match String.compare (File.path f) (File.path g) with
      | Lt => f :: s
      | Eq => f :: s'
      | Gt => g :: put f s'
      end
  end.

Definition get (key : string) (s : t) : option File.t :=
  List.find (fun g => String.eqb (File.path g) key) s.

Definition delete (key : string) (s : t) : t :=
  List.filter (fun g => negb (String.eqb (File.path g) key)) s.

(** [index("dir").openCursor(IDBKeyRange.only(key))] *)
Definition onlyDir (key : string) (s : t) : list File.t :=
  List.filter (fun g => String.eqb (File.dir g) key) s.

End ObjectStore.

(** ** Errors, the world and the monad of asynchronous code *)

(** An error object: [new Error(msg)] has the name "Error"; a fault of
    the store is a [DOMException] with a name of its own. *)
Record JsError := mkError {
  errorName : string;
  message : string;
}.

Definition Error (msg : string) : JsError :=
  {| errorName := "Error"; message := msg |}.

Inductive TxMode := readonly | readwrite.

(** What the library asked of IndexedDB, newest call first. *)
Inductive StoreCall :=
  | CallOpen
  | CallTransaction (mode : TxMode)
  | CallGet (key : string)
  | CallPut (f : File.t)
  | CallDelete (key : string)
  | CallClear
  | CallCursor
  | CallIndexCursor (key : string).

Record World := mkWorld {
  db : bool;                           (* [let db] holds a connection *)
  files : ObjectStore.t;               (* the records of the store *)
  clock : string;                      (* [new Date().toISOString()] *)
  faults : list (option JsError);      (* the faults still to come *)
  calls : list StoreCall;              (* log, newest first *)
}.

(** The state of a browser that never ran the library. *)
Definition fresh (now : string) : World :=
  {| db := false; files := ObjectStore.empty; clock := now;
     faults := []; calls := [] |}.

Inductive Result (A : Type) :=
  | Resolved (a : A)
  | Rejected (e : JsError).
Arguments Resolved {A} a.
Arguments Rejected {A} e.

Definition M (A : Type) : Type := World -> Result A * World.

Definition ret {A} (a : A) : M A := fun w => (Resolved a, w).

Definition bind {A B} (m : M A) (k : A -> M B) : M B :=
  fun w =>
    match m w with
    | (Resolved a, w') => k a w'
    | (Rejected e, w') => (Rejected e, w')
    end.

Definition throw {A} (e : JsError) : M A := fun w => (Rejected e, w).

(** [try { m } catch (error) { handler }]; what [m] did to the world
    before it threw stays done. *)
Definition try_catch {A} (m : M A) (handler : JsError -> M A) : M A :=
  fun w =>
    match m w with
    | (Resolved a, w') => (Resolved a, w')
    | (Rejected e, w') => handler e w'
    end.

(** [x ← m; k] awaits [m] and goes on with [k]; [m ;; k] drops the
    value of [m]. *)
#[global] Instance M_ret : MRet M := @ret.
#[global] Instance M_bind : MBind M := fun A B k m => bind m k.

(** Every handler of the source has the shape
    [catch (error) { throw new Error(`<text>: ${error.message}`) }]. *)
Definition rethrow {A} (text : string) (m : M A) : M A :=
  try_catch m (fun error => throw (Error (text +:+ ": " +:+ message error))).

Definition log (c : StoreCall) : M unit :=
  fun w => (Resolved tt,
            {| db := db w; files := files w; clock := clock w;
               faults := faults w; calls := c :: calls w |}).

(** The next answer of the environment: [None] when the call goes
    through, [Some e] when the store faults with [e]. *)
Definition nextFault : M (option JsError) :=
  fun w =>
    match faults w with
    | [] => (Resolved None, w)
    | f :: rest =>
        (Resolved f,
         {| db := db w; files := files w; clock := clock w;
            faults := rest; calls := calls w |})
    end.

Definition setFiles (s : ObjectStore.t) : M unit :=
  fun w => (Resolved tt,
            {| db := db w; files := s; clock := clock w;
               faults := faults w; calls := calls w |}).

Definition setDb : M unit :=
  fun w => (Resolved tt,
            {| db := true; files := files w; clock := clock w;
               faults := faults w; calls := calls w |}).

Definition getFiles : M ObjectStore.t := fun w => (Resolved (files w), w).

(** [new Date().toISOString()] *)
Definition toISOString : M string := fun w => (Resolved (clock w), w).

(** ** IndexedDB as the source uses it *)

(** [db.transaction(STORE_NAME, mode)] followed by [tx.objectStore]:
    throws when the connection cannot start a transaction. *)
Definition transaction (mode : TxMode) : M unit :=
  log (CallTransaction mode) ;;
  f ← nextFault;
  match f with
  | Some e => throw e
  | None => ret tt
  end.

(** The outcome of a request: [onsuccess] with [req.result], or
    [onerror] with [req.error]. *)
Inductive Request (A : Type) :=
  | onsuccess (result : A)
  | onerror (error : JsError).
Arguments onsuccess {A} result.
Arguments onerror {A} error.

Definition store_get (key : string) : M (Request (option File.t)) :=
  log (CallGet key) ;;
  f ← nextFault;
  match f with
  | Some e => ret (onerror e)
  | None => s ← getFiles; ret (onsuccess (ObjectStore.get key s))
  end.

(** The source puts no handler on the requests below and does not wait
    for them: they are applied in the order they are issued. *)
Definition store_put (f : File.t) : M unit :=
  log (CallPut f) ;;
  s ← getFiles; setFiles (ObjectStore.put f s).

Definition store_delete (key : string) : M unit :=
  log (CallDelete key) ;;
  s ← getFiles; setFiles (ObjectStore.delete key s).

Definition store_clear : M unit :=
  log CallClear ;; setFiles ObjectStore.empty.

Definition store_openCursor : M (list File.t) :=
  log CallCursor ;; getFiles.

Definition index_openCursor (key : string) : M (list File.t) :=
  log (CallIndexCursor key) ;;
  s ← getFiles; ret (ObjectStore.onlyDir key s).

(** ** The library *)

(** [init]: the promise rejects with [req.error], resolves once [db] is
    set. *)
Definition init : M unit :=
  log CallOpen ;;
  f ← nextFault;
  match f with
  | Some e => throw e
  | None => setDb
  end.

(** [db || await init()] *)
Definition ensureInit : M unit :=
  fun w => if db w then ret tt w else init w.

Definition fileRecord (path content now : string) : File.t :=
  {| File.path := path;
     File.name := default "" (Js.pop (Js.split Js.slash path));
     File.dir := getDir path;
     File.content := Js.or_else content "";
     File.size := String.length (Js.or_else content "");
     File.type := "file";
     File.createdAt := now;
     File.updatedAt := now |}.

Definition dirRecord (path now : string) : File.t :=
  {| File.path := path;
     File.name :=
       Js.or_else
         (default "" (Js.pop (Js.filterBoolean (Js.split Js.slash path))))
         "root";
     File.dir := getDir path;
     File.content := "";
     File.size := 0;
     File.type := "directory";
     File.createdAt := now;
     File.updatedAt := now |}.

(** The object pushed by the cursor loops of [listFiles] and
    [getAllFiles]. *)
Definition metadata (value : File.t) : Entry.t :=
  {| Entry.name := File.name value;
     Entry.path := File.path value;
     Entry.size := File.size value;
     Entry.type := Js.or_else (File.type value) "file";
     Entry.createdAt := File.createdAt value;
     Entry.updatedAt := File.updatedAt value |}.

(** In the functions below the handler of the source reads the variable
    [path], which the body reassigns to the normalized path once
    [ensureInit] is through: hence one handler around [ensureInit] with
    the path as given, and one around the rest with the normalized one.

    A [return new Promise(...)] inside [try] is not awaited there: when
    that promise rejects, the handler does not run and the rejection is
    the caller's.  The body of such a promise is therefore outside
    [rethrow]. *)

Definition writeFile (path content : string) : M unit :=
  rethrow ("Failed to write file " +:+ path) ensureInit ;;
  let path := normalizePath path in
  rethrow ("Failed to write file " +:+ path)
    (transaction readwrite ;;
     now ← toISOString;
     store_put (fileRecord path content now)).

Definition readFile (path : string) : M string :=
  rethrow ("Failed to read file " +:+ path) ensureInit ;;
  let path := normalizePath path in
  transaction readonly ;;
  req ← store_get path;
  match req with
  | onsuccess (Some result) => ret (File.content result)
  | onsuccess None => throw (Error ("File not found: " +:+ path))
  | onerror error => throw error
  end.

Definition deleteFile (path : string) : M unit :=
  rethrow ("Failed to delete file " +:+ path) ensureInit ;;
  let path := normalizePath path in
  rethrow ("Failed to delete file " +:+ path)
    (transaction readwrite ;;
     store_delete path).

(** [listFiles(dir)]; the caller that passes nothing passes ["/"]. *)
Definition listFiles (dir : string) : M (list Entry.t) :=
  rethrow ("Failed to list files in " +:+ dir) ensureInit ;;
  let dir := normalizePath dir in
  let dir := if negb (Js.endsWithSlash dir) then dir +:+ "/" else dir in
  transaction readonly ;;
  values ← index_openCursor dir;
  ret (map metadata values).

(** [exists]: the handler is [return false], and so is [onerror]. *)
Definition exists_ (path : string) : M bool :=
  opened ← try_catch (ensureInit ;; ret true) (fun _ => ret false);
  if opened : bool then
    let path := normalizePath path in
    transaction readonly ;;
    req ← store_get path;
    match req with
    | onsuccess result => ret (bool_decide (is_Some result))
    | onerror _ => ret false
    end
  else ret false.

Definition stat (path : string) : M Entry.t :=
  rethrow ("Failed to get file stats for " +:+ path) ensureInit ;;
  let path := normalizePath path in
  transaction readonly ;;
  req ← store_get path;
  match req with
  | onsuccess (Some file) =>
      ret {| Entry.name := File.name file;
             Entry.path := File.path file;
             Entry.size := if Nat.eqb (File.size file) 0
                           then String.length (File.content file)
                           else File.size file;
             Entry.type := Js.or_else (File.type file) "file";
             Entry.createdAt := File.createdAt file;
             Entry.updatedAt := File.updatedAt file |}
  | onsuccess None => throw (Error ("File not found: " +:+ path))
  | onerror error => throw error
  end.

Definition mkdir (path : string) : M unit :=
  rethrow ("Failed to create directory " +:+ path) ensureInit ;;
  let path := normalizePath path in
  let path := if negb (Js.endsWithSlash path) then path +:+ "/" else path in
  rethrow ("Failed to create directory " +:+ path)
    (transaction readwrite ;;
     now ← toISOString;
     store_put (dirRecord path now)).

Definition copyFile (source destination : string) : M unit :=
  rethrow ("Failed to copy file from " +:+ source +:+ " to " +:+ destination)
    (content ← readFile source;
     writeFile destination content).

Definition moveFile (source destination : string) : M unit :=
  rethrow ("Failed to move file from " +:+ source +:+ " to " +:+ destination)
    (copyFile source destination ;;
     deleteFile source).

Definition renameFile (oldPath newPath : string) : M unit :=
  rethrow ("Failed to rename file from " +:+ oldPath +:+ " to " +:+ newPath)
    (moveFile oldPath newPath).

Definition appendFile (path content : string) : M unit :=
  rethrow ("Failed to append to file " +:+ path)
    (present ← exists_ path;
     existingContent ← (if present : bool then readFile path else ret "");
     writeFile path (existingContent +:+ content)).

Definition newline : ascii := ascii_of_nat 10.

Definition readLines (path : string) : M (list string) :=
  rethrow ("Failed to read lines from " +:+ path)
    (content ← readFile path;
     ret (Js.split newline content)).

(** [lines] is an array of lines, or anything else, taken as it is. *)
Definition writeLines (path : string) (lines : list string + string) : M unit :=
  rethrow ("Failed to write lines to " +:+ path)
    (let content :=
       match lines with
       | inl arr => Js.join (String newline "") arr
       | inr s => s
       end in
     writeFile path content).

Definition getFileSize (path : string) : M nat :=
  rethrow ("Failed to get file size for " +:+ path)
    (stats ← stat path;
     ret (Entry.size stats)).

Definition getAllFiles : M (list Entry.t) :=
  rethrow "Failed to get all files" ensureInit ;;
  transaction readonly ;;
  values ← store_openCursor;
  ret (map metadata values).

Definition clear : M unit :=
  rethrow "Failed to clear all files"
    (ensureInit ;;
     transaction readwrite ;;
     store_clear).

Definition quote : string := String (ascii_of_nat 34) "".

(** The predicate of [files.filter(...)] in [search]. *)
Definition searchHit (query : string) (file : Entry.t) : bool :=
  Js.includes (Js.toLowerCase (Entry.name file)) (Js.toLowerCase query)
  || Js.includes (Js.toLowerCase (Entry.path file)) (Js.toLowerCase query).

Definition search (query : string) : M (list Entry.t) :=
  rethrow ("Failed to search for " +:+ quote +:+ query +:+ quote)
    (files ← getAllFiles;
     ret (List.filter (searchHit query) files)).

(** The aliases of the exported object. *)
Definition save := writeFile.
Definition load := readFile.
Definition remove := deleteFile.
Definition list_ := listFiles.
Definition copy := copyFile.
Definition move := moveFile.
Definition rename := renameFile.

(** ** The environment between two calls *)

(** Time passes. *)
Definition setClock (now : string) (w : World) : World :=
  {| db := db w; files := files w; clock := now;
     faults := faults w; calls := calls w |}.

(** The store will fault as [fs] says. *)
Definition setFaults (fs : list (option JsError)) (w : World) : World :=
  {| db := db w; files := files w; clock := clock w;
     faults := fs; calls := calls w |}.

(** [t] occurs in [s]: the meaning of [s.includes(t)]. *)
Definition substringOf (t s : string) : Prop :=
  exists before after, s = before +:+ t +:+ after.

(** [w'] is [w] after calls that went through and changed no record. *)
Definition undisturbed (w w' : World) : Prop :=
  faults w' = [] /\ clock w' = clock w /\ files w' = files w.

(** The calls of the library between [w] and [w']. *)
Definition callsSince (w w' : World) (new : list StoreCall) : Prop :=
  calls w' = (new ++ calls w)%list.

(** [search] as the specification words it: the entries of the full scan
    whose lower-cased name or path contains the lower-cased query, in the
    order of the scan. *)
Definition searchMatch (query : string) (entry : Entry.t) : Prop :=
  substringOf (Js.toLowerCase query) (Js.toLowerCase (Entry.name entry)) \/
  substringOf (Js.toLowerCase query) (Js.toLowerCase (Entry.path entry)).

(** [kept] is what remains of [all] when exactly the elements with [P]
    are kept, in their order. *)
Inductive selection {A} (P : A -> Prop) : list A -> list A -> Prop :=
  | selection_nil : selection P [] []
  | selection_keep x all kept :
      P x -> selection P all kept -> selection P (x :: all) (x :: kept)
  | selection_drop x all kept :
      ~ P x -> selection P all kept -> selection P (x :: all) kept.

(** ** Canonical paths *)

(** Two slashes in a row somewhere in [s]. *)
Fixpoint doubleSlash (s : string) : bool :=
  match s with
  | EmptyString => false
  | String c s' =>
      (bool_decide (c = Js.slash) &&
       match s' with
       | String c' _ => bool_decide (c' = Js.slash)
       | EmptyString => false
       end)
      || doubleSlash s'
  end.

(** A canonical path begins with a slash and has no two in a row. *)
Definition canonical (s : string) : Prop :=
  Js.startsWith s "/" = true /\ doubleSlash s = false.

(** ** Histories of calls *)

(** A call of the exported object, or a step of the environment. *)
Inductive Call :=
  | CWriteFile (path content : string)
  | CReadFile (path : string)
  | CDeleteFile (path : string)
  | CListFiles (dir : string)
  | CExists (path : string)
  | CStat (path : string)
  | CMkdir (path : string)
  | CCopyFile (source destination : string)
  | CMoveFile (source destination : string)
  | CRenameFile (oldPath newPath : string)
  | CAppendFile (path content : string)
  | CReadLines (path : string)
  | CWriteLines (path : string) (lines : list string + string)
  | CGetFileSize (path : string)
  | CGetAllFiles
  | CClear
  | CSearch (query : string)
  | CInit
  | EnvClock (now : string)
  | EnvFaults (fs : list (option JsError)).

(** The world after a call, whatever it answered. *)
Definition after (c : Call) (w : World) : World :=
  match c with
  | CWriteFile path content => snd (writeFile path content w)
  | CReadFile path => snd (readFile path w)
  | CDeleteFile path => snd (deleteFile path w)
  | CListFiles dir => snd (listFiles dir w)
  | CExists path => snd (exists_ path w)
  | CStat path => snd (stat path w)
  | CMkdir path => snd (mkdir path w)
  | CCopyFile source destination => snd (copyFile source destination w)
  | CMoveFile source destination => snd (moveFile source destination w)
  | CRenameFile oldPath newPath => snd (renameFile oldPath newPath w)
  | CAppendFile path content => snd (appendFile path content w)
  | CReadLines path => snd (readLines path w)
  | CWriteLines path lines => snd (writeLines path lines w)
  | CGetFileSize path => snd (getFileSize path w)
  | CGetAllFiles => snd (getAllFiles w)
  | CClear => snd (clear w)
  | CSearch query => snd (search query w)
  | CInit => snd (init w)
  | EnvClock now => setClock now w
  | EnvFaults fs => setFaults fs w
  end.

(** The worlds that calls can lead to from a browser that never ran the
    library. *)
Inductive reachable : World -> Prop :=
  | reachable_fresh now : reachable (fresh now)
  | reachable_after c w : reachable w -> reachable (after c w).

(** What holds of the [dir] of a stored record. *)
Definition dirOfPath (f : File.t) : Prop :=
  File.dir f = getDir (File.path f) /\
  Js.startsWith (File.path f) (File.dir f) = true /\
  (File.dir f = "/" \/ Js.endsWithSlash (File.dir f) = false).

(** What holds of every stored record. *)
Definition wellFormed (f : File.t) : Prop :=
  canonical (File.path f) /\ dirOfPath f.

Definition stable (w : World) : Prop := Forall wellFormed (files w).

(** [m] keeps the records well formed, whatever it answers. *)
Definition preserves {A} (m : M A) : Prop :=
  forall w, stable w -> stable (snd (m w)).

(** ** Invariants of the records *)

(** What holds of the fields of a stored record besides [dir]. *)
Definition coherent (f : File.t) : Prop :=
  File.size f = String.length (File.content f) /\
  File.createdAt f = File.updatedAt f /\
  (File.type f = "file" \/
   File.type f = "directory" /\ File.content f = "" /\
   isDirectory (File.path f) = true).

(** [m] keeps [P] true of every record, whatever it answers. *)
Definition keeps {A} (P : File.t -> Prop) (m : M A) : Prop :=
  forall w, Forall P (files w) -> Forall P (files (snd (m w))).

(** The key under which [mkdir] stores, and [listFiles] looks up. *)
Definition directoryKey (path : string) : string :=
  if negb (Js.endsWithSlash (normalizePath path))
  then normalizePath path +:+ "/" else normalizePath path.

(** No line break in [s]. *)
Definition oneLine (s : string) : Prop :=
  forall before after, s <> before +:+ String newline after.

(** ** Sample worlds *)

Definition yesterday : string := "2026-01-01T00:00:00.000Z".
Definition today : string := "2026-01-02T00:00:00.000Z".

(** A connected store that holds one file, written yesterday. *)
Definition oneFile (path content : string) : World :=
  {| db := true; files := [fileRecord path content yesterday];
     clock := today; faults := []; calls := [] |}.

(** What a closed connection answers to [db.transaction]. *)
Definition connectionClosing : JsError :=
  {| errorName := "InvalidStateError";
     message := "The database connection is closing." |}.

(** The store of [oneFile "/a" "x"], whose connection closes after three
    more calls: a read and a write go through, the next transaction does
    not start. *)
Definition closesAfterCopy : World :=
  setFaults [None; None; None; Some connectionClosing] (oneFile "/a" "x").

(** * Properties *)

Arguments normalizePath : simpl never.
Arguments getDir : simpl never.

(** ** The object store *)

Section store_facts.
Implicit Types (s : ObjectStore.t) (f : File.t) (key : string).

Lemma get_put_eq f s :
  ObjectStore.get (File.path f) (ObjectStore.put f s) = Some f.
Proof.
  induction s as [|g s IH]; simpl.
  - by rewrite String.eqb_refl.
  - destruct (String.compare (File.path f) (File.path g)) eqn:E; simpl.
    + by rewrite String.eqb_refl.
    + by rewrite String.eqb_refl.
    + destruct (String.eqb_spec (File.path g) (File.path f)) as [Heq|]; [|done].
      rewrite Heq in E.
      pose proof (String.compare_antisym (File.path f) (File.path f)) as E'.
      rewrite E in E'. discriminate.
Qed.

Lemma get_put_ne f s key :
  File.path f <> key ->
  ObjectStore.get key (ObjectStore.put f s) = ObjectStore.get key s.
Proof.
  intros Hne. induction s as [|g s IH]; simpl.
  - by apply String.eqb_neq in Hne as ->.
  - destruct (String.compare (File.path f) (File.path g)) eqn:E; simpl.
    + apply String.compare_eq_iff in E. rewrite <- E.
      by apply String.eqb_neq in Hne as ->.
    + by apply String.eqb_neq in Hne as ->.
    + by rewrite IH.
Qed.

Lemma get_delete_eq key s :
  ObjectStore.get key (ObjectStore.delete key s) = None.
Proof.
  induction s as [|g s IH]; simpl; [done|].
  destruct (String.eqb_spec (File.path g) key) as [|Hne]; simpl; [done|].
  by apply String.eqb_neq in Hne as ->.
Qed.

Lemma get_delete_ne key key' s :
  key <> key' ->
  ObjectStore.get key' (ObjectStore.delete key s) = ObjectStore.get key' s.
Proof.
  intros Hne. induction s as [|g s IH]; simpl; [done|].
  destruct (String.eqb_spec (File.path g) key) as [->|Hg]; simpl.
  - by apply String.eqb_neq in Hne as ->.
  - by rewrite IH.
Qed.

Lemma get_Some_path key s f :
  ObjectStore.get key s = Some f -> File.path f = key.
Proof.
  unfold ObjectStore.get. intros H. apply find_some in H as [_ H].
  by apply String.eqb_eq.
Qed.

End store_facts.

Lemma get_put_fileRecord path content now s :
  ObjectStore.get path (ObjectStore.put (fileRecord path content now) s)
  = Some (fileRecord path content now).
Proof. exact (get_put_eq (fileRecord path content now) s). Qed.

Lemma or_else_empty s : Js.or_else s "" = s.
Proof. by destruct s. Qed.

(** ** Running the library *)

Lemma bind_run {A B} (m : M A) (k : A -> M B) w :
  (m ≫= k) w =
  match m w with
  | (Resolved a, w') => k a w'
  | (Rejected e, w') => (Rejected e, w')
  end.
Proof. reflexivity. Qed.

Lemma rethrow_run {A} text (m : M A) w :
  rethrow text m w =
  match m w with
  | (Resolved a, w') => (Resolved a, w')
  | (Rejected e, w') => (Rejected (Error (text +:+ ": " +:+ message e)), w')
  end.
Proof. reflexivity. Qed.

Ltac js_unfold :=
  cbv [writeFile readFile deleteFile listFiles exists_ stat mkdir
       getAllFiles clear
       rethrow try_catch bind ret throw mbind mret M_bind M_ret
       transaction store_get store_put store_delete store_clear
       store_openCursor index_openCursor init ensureInit
       log nextFault setFiles setDb getFiles toISOString
       db files clock faults calls].

Section quiet_store.
(** What each primitive does while the store does not fault. *)
Variable w : World.
Hypothesis quiet : faults w = [].

Lemma writeFile_quiet path content :
  exists w',
    writeFile path content w = (Resolved tt, w') /\
    faults w' = [] /\ clock w' = clock w /\
    files w' =
      ObjectStore.put (fileRecord (normalizePath path) content (clock w))
        (files w).
Proof.
  destruct w as [d s now fs log0]. simpl in quiet. subst fs.
  destruct d; js_unfold; eauto.
Qed.

Lemma mkdir_quiet path :
  exists w',
    mkdir path w = (Resolved tt, w') /\
    faults w' = [] /\ clock w' = clock w /\
    files w' =
      ObjectStore.put
        (dirRecord
           (let path := normalizePath path in
            if negb (Js.endsWithSlash path) then path +:+ "/" else path)
           (clock w))
        (files w).
Proof.
  destruct w as [d s now fs log0]. simpl in quiet. subst fs.
  destruct d; js_unfold; eauto.
Qed.

Lemma readFile_quiet path :
  exists w',
    readFile path w =
      (match ObjectStore.get (normalizePath path) (files w) with
       | Some result => Resolved (File.content result)
       | None => Rejected (Error ("File not found: " +:+ normalizePath path))
       end, w') /\
    undisturbed w w'.
Proof.
  destruct w as [d s now fs log0]. simpl in quiet. subst fs.
  destruct d; js_unfold;
    destruct (ObjectStore.get (normalizePath path) s);
    eexists; (split; [reflexivity|done]).
Qed.

Lemma exists_quiet path :
  exists w',
    exists_ path w =
      (Resolved (bool_decide
                   (is_Some (ObjectStore.get (normalizePath path) (files w)))),
       w') /\
    undisturbed w w'.
Proof.
  destruct w as [d s now fs log0]. simpl in quiet. subst fs.
  destruct d; js_unfold; eexists; (split; [reflexivity|done]).
Qed.

Lemma deleteFile_quiet path :
  exists w',
    deleteFile path w = (Resolved tt, w') /\
    faults w' = [] /\ clock w' = clock w /\
    files w' = ObjectStore.delete (normalizePath path) (files w).
Proof.
  destruct w as [d s now fs log0]. simpl in quiet. subst fs.
  destruct d; js_unfold; eauto.
Qed.

Lemma getAllFiles_quiet :
  exists w',
    getAllFiles w = (Resolved (map metadata (files w)), w') /\
    undisturbed w w'.
Proof.
  destruct w as [d s now fs log0]. simpl in quiet. subst fs.
  destruct d; js_unfold; eexists; (split; [reflexivity|done]).
Qed.

(** [listFiles] answers with the records whose [dir] is the normalized
    argument with a slash at its end, in the order of their paths. *)
Lemma listFiles_quiet dir :
  exists w',
    listFiles dir w =
      (Resolved
         (map metadata
            (ObjectStore.onlyDir
               (let dir := normalizePath dir in
                if negb (Js.endsWithSlash dir) then dir +:+ "/" else dir)
               (files w))), w') /\
    undisturbed w w'.
Proof.
  destruct w as [d s now fs log0]. simpl in quiet. subst fs.
  destruct d; js_unfold; eexists; (split; [reflexivity|done]).
Qed.

End quiet_store.

(** ** Strings *)

Example getDir_nested : getDir "/a/b.txt" = "/a".
Proof. reflexivity. Qed.

Example getDir_top : getDir "/b.txt" = "/".
Proof. reflexivity. Qed.

Example getDir_directory : getDir "/documents/" = "/documents".
Proof. reflexivity. Qed.

Example normalizePath_collapses : normalizePath "a//b///c.txt" = "/a/b/c.txt".
Proof. reflexivity. Qed.

Example split_pop : Js.pop (Js.split Js.slash "/a/b.txt") = Some "b.txt".
Proof. reflexivity. Qed.

Example toLowerCase_latin : Js.toLowerCase "README.md" = "readme.md".
Proof. reflexivity. Qed.

Lemma append_cons c (t u : string) : String c t +:+ u = String c (t +:+ u).
Proof. reflexivity. Qed.

Lemma append_nil (u : string) : "" +:+ u = u.
Proof. reflexivity. Qed.

Lemma prefix_spec t s :
  String.prefix t s = true <-> exists after, s = t +:+ after.
Proof.
  revert t. induction s as [|c s IH]; intros [|a t]; simpl.
  - split; [by exists ""|done].
  - split; [done|]. by intros [after ?].
  - split; [by eexists|done].
  - destruct (ascii_dec a c) as [->|Hne].
    + rewrite IH. split; intros [after H]; exists after;
        rewrite append_cons in *; congruence.
    + split; [done|]. intros [after H]. rewrite append_cons in H. congruence.
Qed.

Lemma includes_unfold s t :
  Js.includes s t =
  String.prefix t s ||
  match s with
  | EmptyString => false
  | String _ s' => Js.includes s' t
  end.
Proof. by destruct s. Qed.

Lemma includes_spec s t : Js.includes s t = true <-> substringOf t s.
Proof.
  split.
  - induction s as [|c s IH];
      rewrite includes_unfold, orb_true_iff, prefix_spec.
    + intros [[after ->]|?]; [|done]. by exists "", after.
    + intros [[after ->]|H].
      * by exists "", after.
      * destruct (IH H) as (before & after & ->).
        by exists (String c before), after.
  - intros (before & after & ->).
    induction before as [|c before IH]; rewrite includes_unfold.
    + rewrite append_nil. apply orb_true_iff. left.
      apply prefix_spec. by eexists.
    + rewrite append_cons. apply orb_true_iff. by right.
Qed.

Lemma searchHit_spec query entry :
  searchHit query entry = true <-> searchMatch query entry.
Proof.
  unfold searchHit, searchMatch.
  by rewrite orb_true_iff, !includes_spec.
Qed.

Lemma selection_filter {A} (P : A -> Prop) (test : A -> bool) all :
  (forall x, test x = true <-> P x) ->
  selection P all (List.filter test all).
Proof.
  intros Htest. induction all as [|x all IH]; simpl; [constructor|].
  destruct (test x) eqn:E.
  - apply selection_keep; [by apply Htest|done].
  - apply selection_drop; [|done]. intros HP%Htest. congruence.
Qed.

(** Exactly one list is the selection of [all]. *)
Lemma selection_unique {A} (P : A -> Prop) all kept kept' :
  selection P all kept -> selection P all kept' -> kept = kept'.
Proof.
  intros H. revert kept'.
  induction H; intros kept' H'; inversion H'; subst;
    try done; f_equal; auto.
Qed.

(** ** Canonical paths and [getDir] *)

Lemma collapse_cons c s :
  Js.collapseSlashes (String c s) =
  if bool_decide (c = Js.slash) then
    match s with
    | String c' _ =>
        if bool_decide (c' = Js.slash) then Js.collapseSlashes s
        else String c (Js.collapseSlashes s)
    | EmptyString => String c EmptyString
    end
  else String c (Js.collapseSlashes s).
Proof. reflexivity. Qed.

Lemma doubleSlash_cons c s :
  doubleSlash (String c s) =
  (bool_decide (c = Js.slash) &&
   match s with
   | String c' _ => bool_decide (c' = Js.slash)
   | EmptyString => false
   end)
  || doubleSlash s.
Proof. reflexivity. Qed.

Lemma collapse_head c s :
  exists r, Js.collapseSlashes (String c s) = String c r.
Proof.
  revert c. induction s as [|c' s IH]; intros c; rewrite collapse_cons.
  - case_bool_decide; eauto.
  - case_bool_decide as Hc; [|eauto].
    case_bool_decide as Hc'; [|eauto].
    destruct (IH c') as [r Hr]. exists r. by rewrite Hc, <- Hc'.
Qed.

Lemma collapse_noDouble s : doubleSlash (Js.collapseSlashes s) = false.
Proof.
  induction s as [|c s IH]; [done|].
  rewrite collapse_cons.
  case_bool_decide as Hc.
  - destruct s as [|c' s]; [by rewrite doubleSlash_cons, andb_false_r|].
    case_bool_decide as Hc'; [done|].
    destruct (collapse_head c' s) as [r Hr]. rewrite Hr in IH |- *.
    rewrite doubleSlash_cons, IH, (bool_decide_false _ Hc').
    by rewrite andb_false_r.
  - by rewrite doubleSlash_cons, IH, (bool_decide_false _ Hc).
Qed.

Lemma collapse_fixed s : doubleSlash s = false -> Js.collapseSlashes s = s.
Proof.
  induction s as [|c s IH]; [done|].
  rewrite doubleSlash_cons, collapse_cons.
  intros [H1 H2]%orb_false_iff. rewrite (IH H2).
  case_bool_decide as Hc; [|done].
  destruct s as [|c' s]; [done|].
  rewrite andb_true_l in H1. by rewrite H1.
Qed.

(** The index that [lastIndexOf] finds holds a slash. *)
Lemma lastSlashFrom_cases s i :
  (0 <= i)%Z ->
  Js.lastSlashFrom i s = (-1)%Z \/
  exists before after,
    s = before +:+ String Js.slash after /\
    Js.lastSlashFrom i s = (i + Z.of_nat (String.length before))%Z.
Proof.
  revert i. induction s as [|c s IH]; intros i Hi; [by left|].
  simpl. destruct (IH (i + 1)%Z ltac:(lia)) as [Hr|(before & after & -> & Hr)].
  - rewrite Hr. simpl. case_bool_decide as Hc; [|by left].
    right. exists "", s. rewrite Hc. split; [done|]. simpl. lia.
  - rewrite Hr. destruct (Z.leb_spec 0 (i + 1 + Z.of_nat (String.length before)));
      [|lia].
    right. exists (String c before), after. split; [done|]. simpl String.length. lia.
Qed.

Lemma substring_before (before rest : string) :
  Js.substring (before +:+ rest) 0 (Z.of_nat (String.length before)) = before.
Proof.
  unfold Js.substring, Js.clamp.
  assert (String.length (before +:+ rest)
          = String.length before + String.length rest) as Hlen.
  { induction before as [|c before IH]; [done|].
    rewrite append_cons. simpl. by rewrite IH. }
  rewrite Hlen.
  replace (Z.to_nat (Z.min (Z.max 0 0) _)) with 0 by lia.
  replace (Z.to_nat (Z.min (Z.max (Z.of_nat (String.length before)) 0) _))
    with (String.length before) by lia.
  rewrite Nat.min_0_l, Nat.max_0_l, Nat.sub_0_r.
  clear Hlen. induction before as [|c before IH].
  - rewrite append_nil. by destruct rest.
  - rewrite append_cons. simpl. by rewrite IH.
Qed.

Lemma substring_to_minus_one s : Js.substring s 0 (-1) = "".
Proof.
  unfold Js.substring, Js.clamp.
  replace (Z.to_nat (Z.min (Z.max 0 0) _)) with 0 by lia.
  replace (Z.to_nat (Z.min (Z.max (-1) 0) _)) with 0 by lia.
  by destruct s.
Qed.

Lemma endsWithSlash_cons c s :
  Js.endsWithSlash (String c s) =
  match s with
  | EmptyString => bool_decide (c = Js.slash)
  | String _ _ => Js.endsWithSlash s
  end.
Proof. by destruct s. Qed.

Lemma endsWithSlash_doubles before after :
  Js.endsWithSlash before = true ->
  doubleSlash (before +:+ String Js.slash after) = true.
Proof.
  induction before as [|c before IH]; [done|].
  rewrite endsWithSlash_cons, append_cons, doubleSlash_cons.
  destruct before as [|c' before].
  - intros ->. rewrite append_nil. by rewrite bool_decide_true by done.
  - intros H. rewrite (IH H). apply orb_true_r.
Qed.

(** [getDir] of a path without two slashes in a row is the root, or what
    stands before one of its slashes. *)
Lemma getDir_cases path :
  doubleSlash path = false ->
  getDir path = "/" \/
  exists after, path = getDir path +:+ String Js.slash after.
Proof.
  intros Hpath. unfold getDir. rewrite (collapse_fixed _ Hpath).
  unfold Js.lastIndexOfSlash.
  destruct (lastSlashFrom_cases path 0 ltac:(lia))
    as [->|(before & after & Hsplit & ->)].
  - left. by rewrite substring_to_minus_one.
  - subst path. rewrite Z.add_0_l, substring_before.
    destruct before as [|c before]; [by left|].
    right. by exists after.
Qed.

Lemma getDir_no_trailing_slash path :
  doubleSlash path = false ->
  getDir path = "/" \/ Js.endsWithSlash (getDir path) = false.
Proof.
  intros Hpath. destruct (getDir_cases path Hpath) as [|[after Hsplit]];
    [by left|].
  right. destruct (Js.endsWithSlash (getDir path)) eqn:E; [|done].
  apply (endsWithSlash_doubles _ after) in E. congruence.
Qed.

Lemma getDir_prefix path :
  canonical path -> Js.startsWith path (getDir path) = true.
Proof.
  intros [Hslash Hpath].
  destruct (getDir_cases path Hpath) as [->|[after Hsplit]]; [done|].
  apply prefix_spec. eauto.
Qed.

Lemma normalizePath_canonical path : canonical (normalizePath path).
Proof.
  unfold normalizePath, canonical. split; [|apply collapse_noDouble].
  destruct (Js.startsWith path "/") eqn:E; cbv [negb].
  - apply prefix_spec in E as [after ->].
    change ("/" +:+ after) with (String "/" after).
    destruct (collapse_head "/" after) as [r ->].
    apply prefix_spec. by exists r.
  - change ("/" +:+ path) with (String "/" path).
    destruct (collapse_head "/" path) as [r ->].
    apply prefix_spec. by exists r.
Qed.

(** Normalizing twice is normalizing once. *)
Lemma normalizePath_idempotent path :
  normalizePath (normalizePath path) = normalizePath path.
Proof.
  destruct (normalizePath_canonical path) as [Hslash Hdouble].
  unfold normalizePath at 1. rewrite Hslash. simpl.
  by apply collapse_fixed.
Qed.

Lemma doubleSlash_add_slash s :
  doubleSlash s = false -> Js.endsWithSlash s = false ->
  doubleSlash (s +:+ "/") = false.
Proof.
  induction s as [|c s IH]; [done|].
  rewrite doubleSlash_cons, endsWithSlash_cons, append_cons, doubleSlash_cons.
  intros [H1 H2]%orb_false_iff H3.
  destruct s as [|c' s].
  - rewrite append_nil. simpl. by rewrite H3.
  - rewrite (IH H2 H3). rewrite append_cons. by rewrite H1.
Qed.

Lemma canonical_add_slash s :
  canonical s -> canonical (if negb (Js.endsWithSlash s) then s +:+ "/" else s).
Proof.
  intros [Hslash Hdouble].
  destruct (Js.endsWithSlash s) eqn:E; simpl; [done|].
  split; [|by apply doubleSlash_add_slash].
  apply prefix_spec in Hslash as [after ->]. apply prefix_spec. by eexists.
Qed.

Lemma wellFormed_of_getDir f :
  canonical (File.path f) -> File.dir f = getDir (File.path f) -> wellFormed f.
Proof.
  intros Hpath Hdir. split; [done|]. unfold dirOfPath. rewrite Hdir.
  split; [done|]. split; [by apply getDir_prefix|].
  apply getDir_no_trailing_slash, Hpath.
Qed.

Lemma wellFormed_fileRecord path content now :
  canonical path -> wellFormed (fileRecord path content now).
Proof. intros. by apply wellFormed_of_getDir. Qed.

Lemma wellFormed_dirRecord path now :
  canonical path -> wellFormed (dirRecord path now).
Proof. intros. by apply wellFormed_of_getDir. Qed.

(** ** Composite operations while the store does not fault *)

Lemma appendFile_quiet w path content :
  faults w = [] ->
  exists w',
    appendFile path content w = (Resolved tt, w') /\
    faults w' = [] /\ clock w' = clock w /\
    files w' =
      ObjectStore.put
        (fileRecord (normalizePath path)
           (match ObjectStore.get (normalizePath path) (files w) with
            | Some result => File.content result
            | None => ""
            end +:+ content)
           (clock w))
        (files w).
Proof.
  intros quiet. unfold appendFile. rewrite rethrow_run, bind_run.
  destruct (exists_quiet w quiet path) as (w1 & -> & quiet1 & now1 & same1).
  destruct (ObjectStore.get (normalizePath path) (files w)) as [result|] eqn:E.
  - rewrite bool_decide_true by eauto. rewrite bind_run.
    destruct (readFile_quiet w1 quiet1 path) as (w2 & -> & quiet2 & now2 & same2).
    rewrite same1, E.
    destruct (writeFile_quiet w2 quiet2 path (File.content result +:+ content))
      as (w3 & -> & quiet3 & now3 & same3).
    exists w3. rewrite same3, now3, same2, now2, same1, now1. done.
  - rewrite bool_decide_false by (by intros [? ?]). rewrite bind_run.
    change (ret "" w1) with (Resolved "", w1).
    destruct (writeFile_quiet w1 quiet1 path ("" +:+ content))
      as (w3 & -> & quiet3 & now3 & same3).
    exists w3. rewrite same3, now3, same1, now1. done.
Qed.

Lemma copyFile_quiet w source destination result :
  faults w = [] ->
  ObjectStore.get (normalizePath source) (files w) = Some result ->
  exists w',
    copyFile source destination w = (Resolved tt, w') /\
    faults w' = [] /\ clock w' = clock w /\
    files w' =
      ObjectStore.put
        (fileRecord (normalizePath destination) (File.content result) (clock w))
        (files w).
Proof.
  intros quiet found. unfold copyFile. rewrite rethrow_run, bind_run.
  destruct (readFile_quiet w quiet source) as (w1 & -> & quiet1 & now1 & same1).
  rewrite found.
  destruct (writeFile_quiet w1 quiet1 destination (File.content result))
    as (w2 & -> & quiet2 & now2 & same2).
  exists w2. rewrite same2, now2, same1, now1. done.
Qed.

Lemma moveFile_quiet w source destination result :
  faults w = [] ->
  ObjectStore.get (normalizePath source) (files w) = Some result ->
  exists w',
    moveFile source destination w = (Resolved tt, w') /\
    faults w' = [] /\ clock w' = clock w /\
    files w' =
      ObjectStore.delete (normalizePath source)
        (ObjectStore.put
           (fileRecord (normalizePath destination) (File.content result)
              (clock w))
           (files w)).
Proof.
  intros quiet found. unfold moveFile. rewrite rethrow_run, bind_run.
  destruct (copyFile_quiet w source destination result quiet found)
    as (w1 & -> & quiet1 & now1 & same1).
  destruct (deleteFile_quiet w1 quiet1 source) as (w2 & -> & quiet2 & now2 & same2).
  exists w2. rewrite same2, now2, same1, now1. done.
Qed.

(** ** Whatever the store does *)

(** The cases of a world: connection or not, and the next three answers
    of the store. *)
Ltac world_cases w :=
  let d := fresh "d" in
  let fs := fresh "fs" in
  destruct w as [d ? ? fs ?];
  destruct d;
  destruct fs as [|[?|] [|[?|] [|[?|] ?]]].

Lemma writeFile_resolved path content w w' :
  writeFile path content w = (Resolved tt, w') ->
  clock w' = clock w /\
  files w' =
    ObjectStore.put (fileRecord (normalizePath path) content (clock w))
      (files w).
Proof. world_cases w; js_unfold; intros H; by simplify_eq. Qed.

Lemma readFile_resolved path content w w' :
  readFile path w = (Resolved content, w') ->
  clock w' = clock w /\ files w' = files w /\
  exists result,
    ObjectStore.get (normalizePath path) (files w) = Some result /\
    content = File.content result.
Proof.
  world_cases w; js_unfold;
    try destruct (ObjectStore.get (normalizePath path) _) eqn:E;
    intros H; simplify_eq; eauto.
Qed.

Lemma deleteFile_rejected path e w w' :
  deleteFile path w = (Rejected e, w') ->
  clock w' = clock w /\ files w' = files w.
Proof. world_cases w; js_unfold; intros H; by simplify_eq. Qed.

Lemma copyFile_resolved source destination w w' :
  copyFile source destination w = (Resolved tt, w') ->
  exists result,
    ObjectStore.get (normalizePath source) (files w) = Some result /\
    files w' =
      ObjectStore.put
        (fileRecord (normalizePath destination) (File.content result) (clock w))
        (files w).
Proof.
  unfold copyFile. rewrite rethrow_run, bind_run.
  destruct (readFile source w) as [[content|e] w1] eqn:Hread; [|done].
  apply readFile_resolved in Hread as (now1 & same1 & result & found & ->).
  destruct (writeFile destination (File.content result) w1)
    as [[[]|e] w2] eqn:Hwrite; [|done].
  apply writeFile_resolved in Hwrite as (_ & stored).
  intros [= <-]. exists result. by rewrite stored, same1, now1.
Qed.

(** [exists] turns a failure to open the database and a failed [get]
    into [false]; what [db.transaction] throws inside the promise it
    returns is not caught. *)
Lemma exists_open_fault path w e rest :
  db w = false -> faults w = Some e :: rest ->
  exists w', exists_ path w = (Resolved false, w').
Proof.
  destruct w as [d s now fs log0]. simpl. intros -> ->. js_unfold. eauto.
Qed.

Lemma exists_request_fault path w e rest :
  db w = true -> faults w = None :: Some e :: rest ->
  exists w', exists_ path w = (Resolved false, w').
Proof.
  destruct w as [d s now fs log0]. simpl. intros -> ->. js_unfold. eauto.
Qed.

Lemma exists_transaction_fault path w e rest :
  db w = true -> faults w = Some e :: rest ->
  exists w', exists_ path w = (Rejected e, w').
Proof.
  destruct w as [d s now fs log0]. simpl. intros -> ->. js_unfold. eauto.
Qed.

(** ** Every reachable store is well formed *)

Lemma Forall_put (P : File.t -> Prop) f s :
  P f -> Forall P s -> Forall P (ObjectStore.put f s).
Proof.
  intros Hf. induction 1 as [|g s Hg Hs IH]; simpl.
  - by constructor.
  - destruct (String.compare (File.path f) (File.path g));
      repeat constructor; done.
Qed.

Lemma Forall_delete (P : File.t -> Prop) key s :
  Forall P s -> Forall P (ObjectStore.delete key s).
Proof.
  induction 1 as [|g s Hg Hs IH]; simpl; [done|].
  destruct (negb _); [by constructor|done].
Qed.

Section preservation.
Context {A B : Type}.

Lemma preserves_ret (a : A) : preserves (mret a : M A).
Proof. by intros w. Qed.

Lemma preserves_throw e : preserves (throw e : M A).
Proof. by intros w. Qed.

Lemma preserves_bind (m : M A) (k : A -> M B) :
  preserves m -> (forall a, preserves (k a)) -> preserves (m ≫= k).
Proof.
  intros Hm Hk w Hw. rewrite bind_run.
  specialize (Hm w Hw). destruct (m w) as [[a|e] w']; [|done].
  by apply Hk.
Qed.

Lemma preserves_try_catch (m : M A) handler :
  preserves m -> (forall e, preserves (handler e)) ->
  preserves (try_catch m handler).
Proof.
  intros Hm Hh w Hw. unfold try_catch.
  specialize (Hm w Hw). destruct (m w) as [[a|e] w']; [done|].
  by apply Hh.
Qed.

Lemma preserves_rethrow text (m : M A) : preserves m -> preserves (rethrow text m).
Proof.
  intros Hm. apply preserves_try_catch; [done|].
  intros e. apply preserves_throw.
Qed.

End preservation.

Lemma preserves_ensureInit : preserves ensureInit.
Proof. intros w Hw. world_cases w; js_unfold; done. Qed.

Lemma preserves_init : preserves init.
Proof. intros w Hw. world_cases w; js_unfold; done. Qed.

Lemma preserves_transaction mode : preserves (transaction mode).
Proof. intros w Hw. world_cases w; js_unfold; done. Qed.

Lemma preserves_toISOString : preserves toISOString.
Proof. by intros w. Qed.

Lemma preserves_store_get key : preserves (store_get key).
Proof. intros w Hw. world_cases w; js_unfold; done. Qed.

Lemma preserves_store_openCursor : preserves store_openCursor.
Proof. by intros w. Qed.

Lemma preserves_index_openCursor key : preserves (index_openCursor key).
Proof. by intros w. Qed.

Lemma preserves_store_put f : wellFormed f -> preserves (store_put f).
Proof. intros Hf w Hw. by apply Forall_put. Qed.

Lemma preserves_store_delete key : preserves (store_delete key).
Proof. intros w Hw. by apply Forall_delete. Qed.

Lemma preserves_store_clear : preserves store_clear.
Proof. intros w Hw. constructor. Qed.

Create HintDb preserve.
#[local] Hint Resolve preserves_ret preserves_throw preserves_rethrow
  preserves_ensureInit preserves_init preserves_transaction
  preserves_toISOString preserves_store_get preserves_store_openCursor
  preserves_index_openCursor preserves_store_put preserves_store_delete
  preserves_store_clear wellFormed_fileRecord wellFormed_dirRecord
  normalizePath_canonical canonical_add_slash : preserve.

(** One step through a function of the library: a bind, a handler, a
    case of an answer, or a primitive. *)
Ltac preserve_step :=
  first
    [ solve [eauto with preserve]
    | match goal with
      | |- preserves (match ?x with _ => _ end) => destruct x
      | |- preserves (if ?x then _ else _) => destruct x
      | |- preserves (let x := _ in _) => cbv zeta
      end
    | apply preserves_bind; [|intros ?]
    | apply preserves_try_catch; [|intros ?] ].

Ltac preserve := repeat preserve_step.

Lemma preserves_writeFile path content : preserves (writeFile path content).
Proof. unfold writeFile. preserve. Qed.

Lemma preserves_readFile path : preserves (readFile path).
Proof. unfold readFile. preserve. Qed.

Lemma preserves_deleteFile path : preserves (deleteFile path).
Proof. unfold deleteFile. preserve. Qed.

Lemma preserves_listFiles dir : preserves (listFiles dir).
Proof. unfold listFiles. preserve. Qed.

Lemma preserves_exists path : preserves (exists_ path).
Proof. unfold exists_. preserve. Qed.

Lemma preserves_stat path : preserves (stat path).
Proof. unfold stat. preserve. Qed.

Lemma preserves_mkdir path : preserves (mkdir path).
Proof. unfold mkdir. preserve. Qed.

#[local] Hint Resolve preserves_writeFile preserves_readFile
  preserves_deleteFile preserves_exists preserves_stat : preserve.

Lemma preserves_copyFile source destination :
  preserves (copyFile source destination).
Proof. unfold copyFile. preserve. Qed.

#[local] Hint Resolve preserves_copyFile : preserve.

Lemma preserves_moveFile source destination :
  preserves (moveFile source destination).
Proof. unfold moveFile. preserve. Qed.

#[local] Hint Resolve preserves_moveFile : preserve.

Lemma preserves_renameFile oldPath newPath :
  preserves (renameFile oldPath newPath).
Proof. unfold renameFile. preserve. Qed.

Lemma preserves_appendFile path content : preserves (appendFile path content).
Proof. unfold appendFile. preserve. Qed.

Lemma preserves_readLines path : preserves (readLines path).
Proof. unfold readLines. preserve. Qed.

Lemma preserves_writeLines path lines : preserves (writeLines path lines).
Proof. unfold writeLines. preserve. Qed.

Lemma preserves_getFileSize path : preserves (getFileSize path).
Proof. unfold getFileSize. preserve. Qed.

Lemma preserves_getAllFiles : preserves getAllFiles.
Proof. unfold getAllFiles. preserve. Qed.

#[local] Hint Resolve preserves_getAllFiles : preserve.

Lemma preserves_clear : preserves clear.
Proof. unfold clear. preserve. Qed.

Lemma preserves_search query : preserves (search query).
Proof. unfold search. preserve. Qed.

(** In every world that calls can lead to, every record has a canonical
    path, its [dir] is [getDir] of its path and a prefix of it, and its
    [dir] is the root or does not end in a slash. *)
Theorem reachable_stable w : reachable w -> stable w.
Proof.
  induction 1 as [now|c w Hw IH]; [constructor|].
  destruct c; simpl;
    [ by apply preserves_writeFile | by apply preserves_readFile
    | by apply preserves_deleteFile | by apply preserves_listFiles
    | by apply preserves_exists | by apply preserves_stat
    | by apply preserves_mkdir | by apply preserves_copyFile
    | by apply preserves_moveFile | by apply preserves_renameFile
    | by apply preserves_appendFile | by apply preserves_readLines
    | by apply preserves_writeLines | by apply preserves_getFileSize
    | by apply preserves_getAllFiles | by apply preserves_clear
    | by apply preserves_search | by apply preserves_init
    | done | done ].
Qed.

(** ** Listing below the root *)

Lemma endsWithSlash_add_slash s : Js.endsWithSlash (s +:+ "/") = true.
Proof.
  induction s as [|c s IH]; [done|].
  rewrite append_cons, endsWithSlash_cons.
  destruct (s +:+ "/") eqn:E; [|done].
  by destruct s.
Qed.

(** The key that [listFiles] looks up ends in a slash, and is the root
    only for the root. *)
Lemma listFiles_key dir :
  let key := if negb (Js.endsWithSlash (normalizePath dir))
             then normalizePath dir +:+ "/" else normalizePath dir in
  Js.endsWithSlash key = true /\ (key = "/" -> normalizePath dir = "/").
Proof.
  destruct (normalizePath_canonical dir) as [Hslash _].
  destruct (Js.endsWithSlash (normalizePath dir)) eqn:E; simpl.
  - done.
  - split; [apply endsWithSlash_add_slash|].
    apply prefix_spec in Hslash as [after ->]. by destruct after.
Qed.

Lemma onlyDir_none key s :
  Forall (fun f => File.dir f <> key) s -> ObjectStore.onlyDir key s = [].
Proof.
  induction 1 as [|f s Hf Hs IH]; [done|].
  simpl. by apply String.eqb_neq in Hf as ->.
Qed.

(** X26: in every world that calls can lead to, on a store that does not
    fault, the listing of any directory but the root is empty, whatever
    was written below that directory. *)
Theorem listFiles_below_root_empty w dir :
  reachable w -> faults w = [] -> normalizePath dir <> "/" ->
  exists w', listFiles dir w = (Resolved [], w').
Proof.
  intros Hw quiet Hdir.
  destruct (listFiles_quiet w quiet dir) as (w' & Hlist & _).
  exists w'. rewrite Hlist. cbv zeta.
  destruct (listFiles_key dir) as [Hends Hroot].
  rewrite onlyDir_none; [done|].
  eapply Forall_impl; [apply (reachable_stable w Hw)|].
  intros f (_ & _ & _ & [Hf|Hf]) Heq; rewrite Heq in Hf.
  - by apply Hdir, Hroot.
  - congruence.
Qed.

(** * The claims *)

(** ** Writing and reading back *)

(** C6: for every path [p] and every content [c], on a store that does
    not fault, [writeFile p c] resolves and [readFile p] then resolves
    with exactly [c]; the empty content is no exception. *)
Theorem C6_write_then_read (w : World) (p c : string) :
  faults w = [] ->
  exists w1 w2,
    writeFile p c w = (Resolved tt, w1) /\
    readFile p w1 = (Resolved c, w2).
Proof.
  intros quiet.
  destruct (writeFile_quiet w quiet p c) as (w1 & Hwrite & quiet1 & _ & stored).
  destruct (readFile_quiet w1 quiet1 p) as (w2 & Hread & _).
  exists w1, w2. split; [done|].
  rewrite Hread, stored, get_put_fileRecord. simpl.
  by rewrite or_else_empty.
Qed.

Lemma C6_witness :
  faults (fresh yesterday) = [] /\
  exists w1 w2,
    writeFile "notes//todo.txt" "" (fresh yesterday)
      = (Resolved tt, w1) /\
    readFile "notes//todo.txt" w1 = (Resolved "", w2).
Proof.
  split; [reflexivity|].
  apply (C6_write_then_read (fresh yesterday)
           "notes//todo.txt" "").
  reflexivity.
Defined.

(** ** Appending *)

(** C7: when [p] holds no record and the store does not fault,
    [appendFile p "a"] and then [appendFile p "b"] resolve, and
    [readFile p] resolves with ["ab"]. *)
Theorem C7_append_twice (w : World) (p : string) :
  faults w = [] ->
  ObjectStore.get (normalizePath p) (files w) = None ->
  exists w1 w2 w3,
    appendFile p "a" w = (Resolved tt, w1) /\
    appendFile p "b" w1 = (Resolved tt, w2) /\
    readFile p w2 = (Resolved "ab", w3).
Proof.
  intros quiet absent.
  destruct (appendFile_quiet w p "a" quiet)
    as (w1 & Hfirst & quiet1 & _ & stored1).
  destruct (appendFile_quiet w1 p "b" quiet1)
    as (w2 & Hsecond & quiet2 & _ & stored2).
  destruct (readFile_quiet w2 quiet2 p) as (w3 & Hread & _).
  exists w1, w2, w3. repeat split; [done..|].
  rewrite Hread, stored2, get_put_fileRecord.
  rewrite stored1, absent, get_put_fileRecord. reflexivity.
Qed.

Lemma C7_witness :
  faults (fresh yesterday) = [] /\
  ObjectStore.get (normalizePath "log.txt")
    (files (fresh yesterday)) = None /\
  exists w1 w2 w3,
    appendFile "log.txt" "a" (fresh yesterday)
      = (Resolved tt, w1) /\
    appendFile "log.txt" "b" w1 = (Resolved tt, w2) /\
    readFile "log.txt" w2 = (Resolved "ab", w3).
Proof.
  split; [reflexivity|]. split; [reflexivity|].
  apply (C7_append_twice (fresh yesterday) "log.txt");
    reflexivity.
Defined.

(** ** Search *)

(** C9: on a store that does not fault, [search query] resolves with the
    entries of the full scan of [getAllFiles] whose lower-cased name or
    lower-cased path contains the lower-cased query, in the order of the
    scan. *)
Theorem C9_search_is_filtered_scan (w : World) (query : string) :
  faults w = [] ->
  exists w1 w2 found,
    getAllFiles w = (Resolved (map metadata (files w)), w1) /\
    search query w = (Resolved found, w2) /\
    selection (searchMatch query) (map metadata (files w)) found.
Proof.
  intros quiet.
  destruct (getAllFiles_quiet w quiet) as (w1 & Hscan & _).
  exists w1, w1, (List.filter (searchHit query) (map metadata (files w))).
  split; [done|]. split.
  - unfold search. by rewrite rethrow_run, bind_run, Hscan.
  - apply selection_filter, searchHit_spec.
Qed.

Lemma C9_witness :
  faults (oneFile "/Notes/a.txt" "x") = [] /\
  exists w1 w2 found,
    getAllFiles (oneFile "/Notes/a.txt" "x")
      = (Resolved (map metadata (files (oneFile "/Notes/a.txt" "x"))), w1) /\
    search "note" (oneFile "/Notes/a.txt" "x") = (Resolved found, w2) /\
    selection (searchMatch "note")
      (map metadata (files (oneFile "/Notes/a.txt" "x"))) found.
Proof.
  split; [reflexivity|].
  apply (C9_search_is_filtered_scan (oneFile "/Notes/a.txt" "x") "note").
  reflexivity.
Defined.

(** The scenario of the specification: of the three paths, a search for
    "note" in any case finds the first two. *)
Example search_scenario :
  fst ((writeFile "/notes/a.txt" "" ;; writeFile "/x/note2.md" "" ;;
        writeFile "/y/other.txt" "" ;; search "NoTe")
         (fresh yesterday))
  = Resolved
      [ {| Entry.name := "a.txt"; Entry.path := "/notes/a.txt";
           Entry.size := 0; Entry.type := "file";
           Entry.createdAt := yesterday;
           Entry.updatedAt := yesterday |};
        {| Entry.name := "note2.md"; Entry.path := "/x/note2.md";
           Entry.size := 0; Entry.type := "file";
           Entry.createdAt := yesterday;
           Entry.updatedAt := yesterday |} ].
Proof. vm_compute. reflexivity. Qed.

(** The scenario of the specification: after the write, the move to
    another directory leaves nothing at the source and the content at the
    destination. *)
Example move_scenario :
  fst ((writeFile "/a//b.txt" "hi" ;; moveFile "/a/b.txt" "/c/b.txt" ;;
        present ← exists_ "/a/b.txt";
        content ← readFile "/c/b.txt";
        mret (present, content)) (fresh today))
  = Resolved (false, "hi").
Proof. vm_compute. reflexivity. Qed.

(** ** Moving a file onto itself *)

(** C10: when source and destination normalize to one path that holds a
    record, and the store does not fault, [moveFile] resolves, having put
    the content back at that path and then deleted it: the path holds no
    record, [exists] answers false and [readFile] finds nothing. *)
Theorem C10_move_onto_itself (w : World) (src dst : string) (record : File.t) :
  faults w = [] ->
  normalizePath src = normalizePath dst ->
  ObjectStore.get (normalizePath src) (files w) = Some record ->
  exists w1 w2 w3,
    moveFile src dst w = (Resolved tt, w1) /\
    files w1 =
      ObjectStore.delete (normalizePath src)
        (ObjectStore.put
           (fileRecord (normalizePath src) (File.content record) (clock w))
           (files w)) /\
    ObjectStore.get (normalizePath src) (files w1) = None /\
    exists_ src w1 = (Resolved false, w2) /\
    readFile src w1 =
      (Rejected (Error ("File not found: " +:+ normalizePath src)), w3).
Proof.
  intros quiet same found.
  destruct (moveFile_quiet w src dst record quiet found)
    as (w1 & Hmove & quiet1 & _ & stored).
  rewrite <- same in stored.
  assert (ObjectStore.get (normalizePath src) (files w1) = None) as gone
    by (rewrite stored; apply get_delete_eq).
  destruct (exists_quiet w1 quiet1 src) as (w2 & Hexists & _).
  destruct (readFile_quiet w1 quiet1 src) as (w3 & Hread & _).
  rewrite gone in Hexists, Hread.
  exists w1, w2, w3. repeat split; try done.
Qed.

Lemma C10_witness :
  faults (oneFile "/a.txt" "keep") = [] /\
  normalizePath "/a.txt" = normalizePath "a.txt" /\
  ObjectStore.get (normalizePath "/a.txt") (files (oneFile "/a.txt" "keep"))
    = Some (fileRecord "/a.txt" "keep" yesterday) /\
  exists w1 w2 w3,
    moveFile "/a.txt" "a.txt" (oneFile "/a.txt" "keep") = (Resolved tt, w1) /\
    files w1 =
      ObjectStore.delete (normalizePath "/a.txt")
        (ObjectStore.put
           (fileRecord (normalizePath "/a.txt")
              (File.content (fileRecord "/a.txt" "keep" yesterday))
              (clock (oneFile "/a.txt" "keep")))
           (files (oneFile "/a.txt" "keep"))) /\
    ObjectStore.get (normalizePath "/a.txt") (files w1) = None /\
    exists_ "/a.txt" w1 = (Resolved false, w2) /\
    readFile "/a.txt" w1 =
      (Rejected (Error ("File not found: " +:+ normalizePath "/a.txt")), w3).
Proof.
  split; [reflexivity|]. split; [reflexivity|]. split; [reflexivity|].
  apply (C10_move_onto_itself (oneFile "/a.txt" "keep") "/a.txt" "a.txt"
           (fileRecord "/a.txt" "keep" yesterday)); reflexivity.
Defined.

(** ** Time stamps *)

(** C2 as stated fails: a record created on the first of January and
    written again on the second carries the second as its [createdAt]. *)
Lemma C2_counterexample :
  exists w1 w2 first second,
    writeFile "/f" "old" (fresh yesterday)
      = (Resolved tt, w1) /\
    ObjectStore.get "/f" (files w1) = Some first /\
    writeFile "/f" "new" (setClock today w1)
      = (Resolved tt, w2) /\
    ObjectStore.get "/f" (files w2) = Some second /\
    File.createdAt first = yesterday /\
    File.createdAt second = today /\
    File.createdAt second <> File.createdAt first.
Proof.
  do 4 eexists.
  split; [vm_compute; reflexivity|].
  split; [vm_compute; reflexivity|].
  split; [vm_compute; reflexivity|].
  split; [vm_compute; reflexivity|].
  split; [reflexivity|]. split; [reflexivity|]. discriminate.
Qed.

(** C2, amended: on a store that does not fault, [writeFile p c] stores
    at the normalized path a record whose [createdAt] and [updatedAt] are
    both the time of this write, whatever the path held before. *)
Theorem C2_write_stamps_now (w : World) (p c : string) :
  faults w = [] ->
  exists w' stored,
    writeFile p c w = (Resolved tt, w') /\
    ObjectStore.get (normalizePath p) (files w') = Some stored /\
    File.createdAt stored = clock w /\
    File.updatedAt stored = clock w.
Proof.
  intros quiet.
  destruct (writeFile_quiet w quiet p c) as (w' & Hwrite & _ & _ & stored).
  exists w', (fileRecord (normalizePath p) c (clock w)).
  split; [done|]. split; [|done].
  rewrite stored. apply get_put_fileRecord.
Qed.

Lemma C2_witness :
  faults (oneFile "/f" "old") = [] /\
  exists w' stored,
    writeFile "/f" "new" (oneFile "/f" "old") = (Resolved tt, w') /\
    ObjectStore.get (normalizePath "/f") (files w') = Some stored /\
    File.createdAt stored = clock (oneFile "/f" "old") /\
    File.updatedAt stored = clock (oneFile "/f" "old").
Proof.
  split; [reflexivity|].
  apply (C2_write_stamps_now (oneFile "/f" "old") "/f" "new"). reflexivity.
Defined.

(** ** Moving a file *)

(** C4 as stated fails: the copy went through and the delete could not
    start its transaction, yet the rejection of [moveFile] is a plain
    [Error] whose text names the move and the delete; nothing in it says
    "PartialCompletion". *)
Lemma C4_counterexample :
  exists w1 w2 e,
    copyFile "/a" "/b" closesAfterCopy = (Resolved tt, w1) /\
    (exists e', deleteFile "/a" w1 = (Rejected e', w2)) /\
    moveFile "/a" "/b" closesAfterCopy = (Rejected e, w2) /\
    errorName e = "Error" /\
    errorName e <> "PartialCompletion" /\
    message e =
      "Failed to move file from /a to /b: Failed to delete file /a: The database connection is closing." /\
    Js.includes (message e) "PartialCompletion" = false.
Proof.
  do 3 eexists.
  split; [vm_compute; reflexivity|].
  split; [eexists; vm_compute; reflexivity|].
  split; [vm_compute; reflexivity|].
  split; [reflexivity|]. split; [discriminate|].
  split; vm_compute; reflexivity.
Qed.

(** C4, amended: when the copy step of [moveFile] resolves and the
    delete step rejects with [e], [moveFile] rejects with a plain [Error]
    whose message is that of [e] behind the text of the move, and the
    content of the source is held by both the source and the destination
    path. *)
Theorem C4_move_delete_fails
    (w w1 w2 : World) (src dst : string) (e : JsError) :
  copyFile src dst w = (Resolved tt, w1) ->
  deleteFile src w1 = (Rejected e, w2) ->
  exists record,
    moveFile src dst w =
      (Rejected
         (Error (("Failed to move file from " +:+ src +:+ " to " +:+ dst)
                 +:+ ": " +:+ message e)), w2) /\
    ObjectStore.get (normalizePath src) (files w) = Some record /\
    File.content <$> ObjectStore.get (normalizePath src) (files w2)
      = Some (File.content record) /\
    File.content <$> ObjectStore.get (normalizePath dst) (files w2)
      = Some (File.content record).
Proof.
  intros Hcopy Hdelete.
  pose proof Hcopy as (record & found & stored)%copyFile_resolved.
  pose proof Hdelete as (_ & same)%deleteFile_rejected.
  exists record. split; [|split; [done|]].
  - unfold moveFile. by rewrite rethrow_run, bind_run, Hcopy, Hdelete.
  - rewrite same, stored. split.
    + destruct (decide (normalizePath dst = normalizePath src)) as [Heq|Hne].
      * rewrite Heq, get_put_fileRecord. simpl. by rewrite or_else_empty.
      * rewrite get_put_ne by done. by rewrite found.
    + rewrite get_put_fileRecord. simpl. by rewrite or_else_empty.
Qed.

Lemma C4_witness :
  copyFile "/a" "/b" closesAfterCopy
    = (Resolved tt, snd (copyFile "/a" "/b" closesAfterCopy)) /\
  deleteFile "/a" (snd (copyFile "/a" "/b" closesAfterCopy))
    = (Rejected
         (Error ("Failed to delete file /a: " +:+ message connectionClosing)),
       snd (deleteFile "/a" (snd (copyFile "/a" "/b" closesAfterCopy)))) /\
  exists record,
    moveFile "/a" "/b" closesAfterCopy =
      (Rejected
         (Error (("Failed to move file from " +:+ "/a" +:+ " to " +:+ "/b")
                 +:+ ": "
                 +:+ message
                       (Error ("Failed to delete file /a: "
                               +:+ message connectionClosing)))),
       snd (deleteFile "/a" (snd (copyFile "/a" "/b" closesAfterCopy)))) /\
    ObjectStore.get (normalizePath "/a") (files closesAfterCopy)
      = Some record /\
    File.content <$>
      ObjectStore.get (normalizePath "/a")
        (files (snd (deleteFile "/a" (snd (copyFile "/a" "/b" closesAfterCopy)))))
      = Some (File.content record) /\
    File.content <$>
      ObjectStore.get (normalizePath "/b")
        (files (snd (deleteFile "/a" (snd (copyFile "/a" "/b" closesAfterCopy)))))
      = Some (File.content record).
Proof.
  split; [vm_compute; reflexivity|].
  split; [vm_compute; reflexivity|].
  apply (C4_move_delete_fails closesAfterCopy
           (snd (copyFile "/a" "/b" closesAfterCopy))
           (snd (deleteFile "/a" (snd (copyFile "/a" "/b" closesAfterCopy))))
           "/a" "/b"
           (Error ("Failed to delete file /a: " +:+ message connectionClosing)));
    vm_compute; reflexivity.
Defined.

(** [renameFile] is [moveFile] with one more layer of text. *)
Lemma renameFile_run oldPath newPath w :
  renameFile oldPath newPath w =
  match moveFile oldPath newPath w with
  | (Resolved a, w') => (Resolved a, w')
  | (Rejected e, w') =>
      (Rejected
         (Error (("Failed to rename file from " +:+ oldPath +:+ " to "
                  +:+ newPath) +:+ ": " +:+ message e)), w')
  end.
Proof. reflexivity. Qed.

(** C5 as stated fails for a destination that holds a record: the move
    of a missing source fails and leaves the destination as it was, so
    [exists] still answers true for it. *)
Lemma C5_counterexample :
  exists e w1 w2,
    ObjectStore.get (normalizePath "/s") (files (oneFile "/d" "x")) = None /\
    moveFile "/s" "/d" (oneFile "/d" "x") = (Rejected e, w1) /\
    exists_ "/d" w1 = (Resolved true, w2).
Proof.
  do 3 eexists.
  split; [reflexivity|].
  split; vm_compute; reflexivity.
Qed.

(** C5, amended: when the source holds no record and the store does not
    fault, [moveFile] rejects because [readFile] found nothing; since the
    call the library has opened the database at most, started one
    read-only transaction and issued one [get], no [put] and no [delete];
    the records are what they were, so [exists] answers for the
    destination what it would have answered before, and false for the
    source. *)
Theorem C5_move_missing_source (w : World) (src dst : string) :
  faults w = [] ->
  ObjectStore.get (normalizePath src) (files w) = None ->
  exists w1 w2 w3 new,
    moveFile src dst w =
      (Rejected
         (Error
            (("Failed to move file from " +:+ src +:+ " to " +:+ dst)
             +:+ ": "
             +:+ ("Failed to copy file from " +:+ src +:+ " to " +:+ dst)
             +:+ ": "
             +:+ "File not found: " +:+ normalizePath src)), w1) /\
    files w1 = files w /\
    callsSince w w1 new /\
    Forall (fun c => c = CallOpen \/ c = CallTransaction readonly \/
                     c = CallGet (normalizePath src)) new /\
    exists_ dst w1 =
      (Resolved
         (bool_decide (is_Some (ObjectStore.get (normalizePath dst) (files w)))),
       w2) /\
    exists_ src w1 = (Resolved false, w3).
Proof.
  intros quiet absent.
  assert (exists w1 new,
    moveFile src dst w =
      (Rejected
         (Error
            (("Failed to move file from " +:+ src +:+ " to " +:+ dst)
             +:+ ": "
             +:+ ("Failed to copy file from " +:+ src +:+ " to " +:+ dst)
             +:+ ": "
             +:+ "File not found: " +:+ normalizePath src)), w1) /\
    faults w1 = [] /\ files w1 = files w /\
    callsSince w w1 new /\
    Forall (fun c => c = CallOpen \/ c = CallTransaction readonly \/
                     c = CallGet (normalizePath src)) new)
    as (w1 & new & Hmove & quiet1 & same & Hcalls & Hnew).
  { unfold callsSince.
    destruct w as [d s now fs log0]. simpl in *. subst fs.
    destruct d; cbv [moveFile copyFile]; js_unfold; rewrite absent.
    - eexists _, [CallGet (normalizePath src); CallTransaction readonly].
      repeat split; auto 10.
    - eexists _, [CallGet (normalizePath src); CallTransaction readonly;
                  CallOpen].
      repeat split; auto 10. }
  destruct (exists_quiet w1 quiet1 dst) as (w2 & Hdst & _).
  destruct (exists_quiet w1 quiet1 src) as (w3 & Hsrc & _).
  rewrite same in Hdst, Hsrc. rewrite absent in Hsrc.
  exists w1, w2, w3, new. repeat split; done.
Qed.

Lemma C5_witness :
  faults (oneFile "/d" "x") = [] /\
  ObjectStore.get (normalizePath "/s") (files (oneFile "/d" "x")) = None /\
  exists w1 w2 w3 new,
    moveFile "/s" "/d" (oneFile "/d" "x") =
      (Rejected
         (Error
            (("Failed to move file from " +:+ "/s" +:+ " to " +:+ "/d")
             +:+ ": "
             +:+ ("Failed to copy file from " +:+ "/s" +:+ " to " +:+ "/d")
             +:+ ": "
             +:+ "File not found: " +:+ normalizePath "/s")), w1) /\
    files w1 = files (oneFile "/d" "x") /\
    callsSince (oneFile "/d" "x") w1 new /\
    Forall (fun c => c = CallOpen \/ c = CallTransaction readonly \/
                     c = CallGet (normalizePath "/s")) new /\
    exists_ "/d" w1 =
      (Resolved
         (bool_decide
            (is_Some (ObjectStore.get (normalizePath "/d")
                        (files (oneFile "/d" "x"))))),
       w2) /\
    exists_ "/s" w1 = (Resolved false, w3).
Proof.
  split; [reflexivity|]. split; [reflexivity|].
  apply (C5_move_missing_source (oneFile "/d" "x") "/s" "/d"); reflexivity.
Defined.

(** ** Existence checks *)

(** C8 fails on a connection that is closing: [db.transaction] throws
    inside the promise that [exists] returns without awaiting it, the
    handler [return false] does not run, and [exists] rejects. *)
Theorem C8_exists_rejects_on_closing_connection :
  exists w',
    exists_ "/config.json"
      (setFaults [Some connectionClosing] (oneFile "/config.json" "{}"))
    = (Rejected connectionClosing, w').
Proof. eexists. vm_compute. reflexivity. Qed.

(** ** Directories *)

(** C1 fails in its listing: [writeFile "/a//b.txt" "hi"] stores path,
    name and size as claimed, but [dir] is "/a", without the slash that
    [listFiles "/a"] puts at the end of its key, and the listing is
    empty. *)
Theorem C1_listing_misses_written_file :
  exists w1 w2,
    writeFile "/a//b.txt" "hi" (fresh today) = (Resolved tt, w1) /\
    files w1 =
      [ {| File.path := "/a/b.txt"; File.name := "b.txt"; File.dir := "/a";
           File.content := "hi"; File.size := 2; File.type := "file";
           File.createdAt := today; File.updatedAt := today |} ] /\
    listFiles "/a" w1 = (Resolved [], w2) /\
    listFiles "/a/" w1 = (Resolved [], w2).
Proof.
  do 2 eexists.
  split; [vm_compute; reflexivity|].
  split; [reflexivity|].
  split; vm_compute; reflexivity.
Qed.

(** C3 fails in one part: the [dir] of the records that [writeFile] and
    [mkdir] store is [getDir] of their path and a prefix of it, but it
    does not end in a slash. *)
Theorem C3_dir_has_no_trailing_slash :
  exists w1 w2 file directory,
    writeFile "/a/b.txt" "x" (fresh today) = (Resolved tt, w1) /\
    mkdir "/docs" w1 = (Resolved tt, w2) /\
    ObjectStore.get "/a/b.txt" (files w2) = Some file /\
    ObjectStore.get "/docs/" (files w2) = Some directory /\
    File.dir file = "/a" /\
    File.dir file = getDir (File.path file) /\
    Js.startsWith (File.path file) (File.dir file) = true /\
    Js.endsWithSlash (File.dir file) = false /\
    File.dir directory = "/docs" /\
    File.dir directory = getDir (File.path directory) /\
    Js.startsWith (File.path directory) (File.dir directory) = true /\
    Js.endsWithSlash (File.dir directory) = false.
Proof.
  do 4 eexists.
  split; [vm_compute; reflexivity|].
  split; [vm_compute; reflexivity|].
  split; [vm_compute; reflexivity|].
  split; [vm_compute; reflexivity|].
  repeat split; vm_compute; reflexivity.
Qed.

(** * Further properties of the library *)

(** ** Invariants, for any property of the records *)

Section keeping.
Variable P : File.t -> Prop.
Hypothesis P_file :
  forall path content now, P (fileRecord (normalizePath path) content now).
Hypothesis P_dir : forall path now, P (dirRecord (directoryKey path) now).

Lemma keeps_ret {A} (a : A) : keeps P (mret a : M A).
Proof. by intros w. Qed.

Lemma keeps_throw {A} e : keeps P (throw e : M A).
Proof. by intros w. Qed.

Lemma keeps_bind {A B} (m : M A) (k : A -> M B) :
  keeps P m -> (forall a, keeps P (k a)) -> keeps P (m ≫= k).
Proof.
  intros Hm Hk w Hw. rewrite bind_run.
  specialize (Hm w Hw). destruct (m w) as [[a|e] w']; [|done].
  by apply Hk.
Qed.

Lemma keeps_try_catch {A} (m : M A) handler :
  keeps P m -> (forall e, keeps P (handler e)) -> keeps P (try_catch m handler).
Proof.
  intros Hm Hh w Hw. unfold try_catch.
  specialize (Hm w Hw). destruct (m w) as [[a|e] w']; [done|].
  by apply Hh.
Qed.

Lemma keeps_rethrow {A} text (m : M A) : keeps P m -> keeps P (rethrow text m).
Proof.
  intros Hm. apply keeps_try_catch; [done|]. intros e. apply keeps_throw.
Qed.

Lemma keeps_ensureInit : keeps P ensureInit.
Proof. intros w Hw. world_cases w; js_unfold; done. Qed.

Lemma keeps_init : keeps P init.
Proof. intros w Hw. world_cases w; js_unfold; done. Qed.

Lemma keeps_transaction mode : keeps P (transaction mode).
Proof. intros w Hw. world_cases w; js_unfold; done. Qed.

Lemma keeps_toISOString : keeps P toISOString.
Proof. by intros w. Qed.

Lemma keeps_store_get key : keeps P (store_get key).
Proof. intros w Hw. world_cases w; js_unfold; done. Qed.

Lemma keeps_store_openCursor : keeps P store_openCursor.
Proof. by intros w. Qed.

Lemma keeps_index_openCursor key : keeps P (index_openCursor key).
Proof. by intros w. Qed.

Lemma keeps_store_put f : P f -> keeps P (store_put f).
Proof. intros Hf w Hw. by apply Forall_put. Qed.

Lemma keeps_store_delete key : keeps P (store_delete key).
Proof. intros w Hw. by apply Forall_delete. Qed.

Lemma keeps_store_clear : keeps P store_clear.
Proof. intros w Hw. constructor. Qed.

Create HintDb keep.
#[local] Hint Resolve keeps_ret keeps_throw keeps_rethrow keeps_ensureInit
  keeps_init keeps_transaction keeps_toISOString keeps_store_get
  keeps_store_openCursor keeps_index_openCursor keeps_store_put
  keeps_store_delete keeps_store_clear P_file P_dir : keep.

Ltac keep_step :=
  first
    [ solve [eauto with keep]
    | match goal with
      | |- keeps _ (match ?x with _ => _ end) => destruct x
      | |- keeps _ (let x := _ in _) => cbv zeta
      end
    | apply keeps_bind; [|intros ?]
    | apply keeps_try_catch; [|intros ?] ].

Ltac keep := repeat keep_step.

Lemma keeps_writeFile path content : keeps P (writeFile path content).
Proof. unfold writeFile. keep. Qed.

Lemma keeps_readFile path : keeps P (readFile path).
Proof. unfold readFile. keep. Qed.

Lemma keeps_deleteFile path : keeps P (deleteFile path).
Proof. unfold deleteFile. keep. Qed.

Lemma keeps_listFiles dir : keeps P (listFiles dir).
Proof. unfold listFiles. keep. Qed.

Lemma keeps_exists path : keeps P (exists_ path).
Proof. unfold exists_. keep. Qed.

Lemma keeps_stat path : keeps P (stat path).
Proof. unfold stat. keep. Qed.

Lemma keeps_mkdir path : keeps P (mkdir path).
Proof.
  unfold mkdir. fold (directoryKey path). keep.
Qed.

#[local] Hint Resolve keeps_writeFile keeps_readFile keeps_deleteFile
  keeps_exists keeps_stat : keep.

Lemma keeps_copyFile source destination :
  keeps P (copyFile source destination).
Proof. unfold copyFile. keep. Qed.

#[local] Hint Resolve keeps_copyFile : keep.

Lemma keeps_moveFile source destination :
  keeps P (moveFile source destination).
Proof. unfold moveFile. keep. Qed.

#[local] Hint Resolve keeps_moveFile : keep.

Lemma keeps_renameFile oldPath newPath : keeps P (renameFile oldPath newPath).
Proof. unfold renameFile. keep. Qed.

Lemma keeps_appendFile path content : keeps P (appendFile path content).
Proof. unfold appendFile. keep. Qed.

Lemma keeps_readLines path : keeps P (readLines path).
Proof. unfold readLines. keep. Qed.

Lemma keeps_writeLines path lines : keeps P (writeLines path lines).
Proof. unfold writeLines. keep. Qed.

Lemma keeps_getFileSize path : keeps P (getFileSize path).
Proof. unfold getFileSize. keep. Qed.

Lemma keeps_getAllFiles : keeps P getAllFiles.
Proof. unfold getAllFiles. keep. Qed.

#[local] Hint Resolve keeps_getAllFiles : keep.

Lemma keeps_clear : keeps P clear.
Proof. unfold clear. keep. Qed.

Lemma keeps_search query : keeps P (search query).
Proof. unfold search. keep. Qed.

(** What the records written by [writeFile] and [mkdir] have, every
    record of every reachable store has. *)
Lemma reachable_keeps w : reachable w -> Forall P (files w).
Proof.
  induction 1 as [now|c w Hw IH]; [constructor|].
  destruct c; simpl;
    [ by apply keeps_writeFile | by apply keeps_readFile
    | by apply keeps_deleteFile | by apply keeps_listFiles
    | by apply keeps_exists | by apply keeps_stat
    | by apply keeps_mkdir | by apply keeps_copyFile
    | by apply keeps_moveFile | by apply keeps_renameFile
    | by apply keeps_appendFile | by apply keeps_readLines
    | by apply keeps_writeLines | by apply keeps_getFileSize
    | by apply keeps_getAllFiles | by apply keeps_clear
    | by apply keeps_search | by apply keeps_init
    | done | done ].
Qed.

End keeping.

(** ** Paths *)

Lemma normalizePath_fixed path : canonical path -> normalizePath path = path.
Proof.
  intros [Hslash Hdouble]. unfold normalizePath. rewrite Hslash.
  by apply collapse_fixed.
Qed.

(** X1: for every string, [normalizePath] answers a path that begins
    with a slash and has no two slashes in a row, and normalizing that
    path again gives it back. *)
Theorem X1_normalizePath_canonical_and_idempotent (path : string) :
  Js.startsWith (normalizePath path) "/" = true /\
  ~ substringOf "//" (normalizePath path) /\
  normalizePath (normalizePath path) = normalizePath path.
Proof.
  destruct (normalizePath_canonical path) as [Hslash Hdouble].
  split; [done|]. split; [|apply normalizePath_idempotent].
  intros (before & after & Hsplit).
  assert (doubleSlash (before +:+ "//" +:+ after) = true) as Htwo.
  { clear. induction before as [|c before IH].
    - rewrite append_nil. reflexivity.
    - rewrite append_cons, doubleSlash_cons, IH. apply orb_true_r. }
  congruence.
Qed.

(** X2: for every string, [getDir] is never empty; it is the root, or it
    does not end in a slash and is what stands before one of the slashes
    of the path with its runs of slashes collapsed. *)
Theorem X2_getDir_shape (path : string) :
  getDir path <> "" /\
  (getDir path = "/" \/
   Js.endsWithSlash (getDir path) = false /\
   exists after,
     Js.collapseSlashes path = getDir path +:+ String Js.slash after).
Proof.
  assert (getDir path = getDir (Js.collapseSlashes path)) as Hsame.
  { unfold getDir. by rewrite (collapse_fixed _ (collapse_noDouble path)). }
  split.
  - unfold getDir, Js.or_else. by destruct (Js.substring _ _ _).
  - rewrite Hsame.
    destruct (getDir_cases _ (collapse_noDouble path)) as [|[after Hsplit]];
      [by left|].
    destruct (getDir_no_trailing_slash _ (collapse_noDouble path));
      [by left|].
    right. split; [done|]. by exists after.
Qed.

(** ** Reading and writing *)

(** X3: on a store that does not fault, [readFile] of a path that holds
    no record rejects with a plain [Error] whose message is "File not
    found: " and the normalized path, with no "Failed to read file" in
    front, and changes no record. *)
Theorem X3_readFile_missing (w : World) (path : string) :
  faults w = [] ->
  ObjectStore.get (normalizePath path) (files w) = None ->
  exists w',
    readFile path w =
      (Rejected (Error ("File not found: " +:+ normalizePath path)), w') /\
    files w' = files w.
Proof.
  intros quiet absent.
  destruct (readFile_quiet w quiet path) as (w' & Hread & _ & _ & same).
  rewrite absent in Hread. eauto.
Qed.

Lemma X3_witness :
  faults (oneFile "/a.txt" "x") = [] /\
  ObjectStore.get (normalizePath "nonexistent.txt")
    (files (oneFile "/a.txt" "x")) = None /\
  exists w',
    readFile "nonexistent.txt" (oneFile "/a.txt" "x") =
      (Rejected (Error ("File not found: " +:+ normalizePath "nonexistent.txt")),
       w') /\
    files w' = files (oneFile "/a.txt" "x").
Proof.
  split; [reflexivity|]. split; [reflexivity|].
  apply (X3_readFile_missing (oneFile "/a.txt" "x") "nonexistent.txt");
    reflexivity.
Defined.

(** X4: on a store that does not fault, [writeFile] at one path leaves
    the record of every path that normalizes differently as it was, so
    [readFile] answers for it what it answered before. *)
Theorem X4_writeFile_other_paths (w : World) (path content other : string) :
  faults w = [] ->
  normalizePath other <> normalizePath path ->
  exists w',
    writeFile path content w = (Resolved tt, w') /\
    ObjectStore.get (normalizePath other) (files w')
      = ObjectStore.get (normalizePath other) (files w) /\
    fst (readFile other w') = fst (readFile other w).
Proof.
  intros quiet Hne.
  destruct (writeFile_quiet w quiet path content)
    as (w' & Hwrite & quiet' & _ & stored).
  assert (ObjectStore.get (normalizePath other) (files w')
          = ObjectStore.get (normalizePath other) (files w)) as Hsame.
  { rewrite stored. apply get_put_ne. simpl. congruence. }
  exists w'. split; [done|]. split; [done|].
  destruct (readFile_quiet w quiet other) as (? & -> & _).
  destruct (readFile_quiet w' quiet' other) as (? & -> & _).
  simpl. by rewrite Hsame.
Qed.

Lemma X4_witness :
  faults (oneFile "/a.txt" "x") = [] /\
  normalizePath "/a.txt" <> normalizePath "/b.txt" /\
  exists w',
    writeFile "/b.txt" "y" (oneFile "/a.txt" "x") = (Resolved tt, w') /\
    ObjectStore.get (normalizePath "/a.txt") (files w')
      = ObjectStore.get (normalizePath "/a.txt") (files (oneFile "/a.txt" "x")) /\
    fst (readFile "/a.txt" w') = fst (readFile "/a.txt" (oneFile "/a.txt" "x")).
Proof.
  split; [reflexivity|]. split; [vm_compute; discriminate|].
  apply (X4_writeFile_other_paths (oneFile "/a.txt" "x") "/b.txt" "y" "/a.txt");
    [reflexivity | vm_compute; discriminate].
Defined.

(** X5: whatever the store does, a [writeFile] that rejects has changed
    no record, and rejects with a plain [Error] whose message begins with
    "Failed to write file " and the path, as given or normalized. *)
Theorem X5_writeFile_rejected
    (w w' : World) (path content : string) (e : JsError) :
  writeFile path content w = (Rejected e, w') ->
  files w' = files w /\
  errorName e = "Error" /\
  exists cause,
    message e = ("Failed to write file " +:+ path) +:+ ": " +:+ cause \/
    message e =
      ("Failed to write file " +:+ normalizePath path) +:+ ": " +:+ cause.
Proof.
  world_cases w; js_unfold; intros H; simplify_eq;
    (split; [done|]); (split; [done|]); eauto.
Qed.

Lemma X5_witness :
  writeFile "a.txt" "x" (setFaults [Some connectionClosing] (oneFile "/b" "y"))
    = (Rejected
         (Error (("Failed to write file " +:+ normalizePath "a.txt") +:+ ": "
                 +:+ message connectionClosing)),
       snd (writeFile "a.txt" "x"
              (setFaults [Some connectionClosing] (oneFile "/b" "y")))) /\
  files (snd (writeFile "a.txt" "x"
                (setFaults [Some connectionClosing] (oneFile "/b" "y"))))
    = files (setFaults [Some connectionClosing] (oneFile "/b" "y")) /\
  errorName
    (Error (("Failed to write file " +:+ normalizePath "a.txt") +:+ ": "
            +:+ message connectionClosing)) = "Error" /\
  exists cause,
    message
      (Error (("Failed to write file " +:+ normalizePath "a.txt") +:+ ": "
              +:+ message connectionClosing))
      = ("Failed to write file " +:+ "a.txt") +:+ ": " +:+ cause \/
    message
      (Error (("Failed to write file " +:+ normalizePath "a.txt") +:+ ": "
              +:+ message connectionClosing))
      = ("Failed to write file " +:+ normalizePath "a.txt") +:+ ": " +:+ cause.
Proof.
  split; [vm_compute; reflexivity|].
  apply (X5_writeFile_rejected
           (setFaults [Some connectionClosing] (oneFile "/b" "y"))
           (snd (writeFile "a.txt" "x"
                   (setFaults [Some connectionClosing] (oneFile "/b" "y"))))
           "a.txt" "x").
  vm_compute. reflexivity.
Defined.

(** ** Opening the database *)

(** X6: when the library holds no connection and the database fails to
    open with [e], [writeFile] rejects with "Failed to write file ", the
    path as given and the message of [e], stores nothing and keeps no
    connection; the same call made again opens the database anew and
    stores the record. *)
Theorem X6_open_failure_is_retried
    (w : World) (path content : string) (e : JsError) :
  db w = false ->
  faults w = [Some e] ->
  exists w1 w2,
    writeFile path content w =
      (Rejected
         (Error (("Failed to write file " +:+ path) +:+ ": " +:+ message e)),
       w1) /\
    db w1 = false /\ files w1 = files w /\
    writeFile path content w1 = (Resolved tt, w2) /\
    db w2 = true /\
    ObjectStore.get (normalizePath path) (files w2)
      = Some (fileRecord (normalizePath path) content (clock w)).
Proof.
  destruct w as [d s now fs log0]. simpl. intros -> ->.
  js_unfold. do 2 eexists.
  split; [reflexivity|]. split; [done|]. split; [done|].
  split; [reflexivity|]. split; [done|].
  apply get_put_fileRecord.
Qed.

Lemma X6_witness :
  db (setFaults [Some connectionClosing] (fresh today)) = false /\
  faults (setFaults [Some connectionClosing] (fresh today))
    = [Some connectionClosing] /\
  exists w1 w2,
    writeFile "a.txt" "x" (setFaults [Some connectionClosing] (fresh today)) =
      (Rejected
         (Error (("Failed to write file " +:+ "a.txt") +:+ ": "
                 +:+ message connectionClosing)),
       w1) /\
    db w1 = false /\
    files w1 = files (setFaults [Some connectionClosing] (fresh today)) /\
    writeFile "a.txt" "x" w1 = (Resolved tt, w2) /\
    db w2 = true /\
    ObjectStore.get (normalizePath "a.txt") (files w2)
      = Some (fileRecord (normalizePath "a.txt") "x"
                (clock (setFaults [Some connectionClosing] (fresh today)))).
Proof.
  split; [reflexivity|]. split; [reflexivity|].
  apply (X6_open_failure_is_retried
           (setFaults [Some connectionClosing] (fresh today)) "a.txt" "x"
           connectionClosing); reflexivity.
Defined.

(** ** Deleting *)

Lemma delete_delete key s :
  ObjectStore.delete key (ObjectStore.delete key s) = ObjectStore.delete key s.
Proof.
  induction s as [|g s IH]; [done|].
  simpl. destruct (negb (File.path g =? key)%string) eqn:E; [|done].
  simpl. rewrite E. by f_equal.
Qed.

(** X7: on a store that does not fault, [deleteFile] resolves whether or
    not the path holds a record; afterwards [exists] answers false for
    it, and deleting it once more resolves and leaves the records as the
    first deletion left them. *)
Theorem X7_deleteFile_idempotent (w : World) (path : string) :
  faults w = [] ->
  exists w1 w2 w3,
    deleteFile path w = (Resolved tt, w1) /\
    exists_ path w1 = (Resolved false, w2) /\
    deleteFile path w1 = (Resolved tt, w3) /\
    files w3 = files w1.
Proof.
  intros quiet.
  destruct (deleteFile_quiet w quiet path) as (w1 & Hdel & quiet1 & _ & stored1).
  destruct (exists_quiet w1 quiet1 path) as (w2 & Hex & _).
  destruct (deleteFile_quiet w1 quiet1 path) as (w3 & Hdel' & _ & _ & stored3).
  exists w1, w2, w3. split; [done|]. split; [|split; [done|]].
  - by rewrite Hex, stored1, get_delete_eq.
  - rewrite stored3, stored1. apply delete_delete.
Qed.

Lemma X7_witness :
  faults (oneFile "/a.txt" "x") = [] /\
  exists w1 w2 w3,
    deleteFile "a.txt" (oneFile "/a.txt" "x") = (Resolved tt, w1) /\
    exists_ "a.txt" w1 = (Resolved false, w2) /\
    deleteFile "a.txt" w1 = (Resolved tt, w3) /\
    files w3 = files w1.
Proof.
  split; [reflexivity|].
  apply (X7_deleteFile_idempotent (oneFile "/a.txt" "x") "a.txt").
  reflexivity.
Defined.

(** X8: on a store that does not fault, [deleteFile] of one path leaves
    the record of every path that normalizes differently as it was: the
    deletion of a directory record does not reach the files below it. *)
Theorem X8_deleteFile_other_paths (w : World) (path other : string) :
  faults w = [] ->
  normalizePath other <> normalizePath path ->
  exists w',
    deleteFile path w = (Resolved tt, w') /\
    ObjectStore.get (normalizePath other) (files w')
      = ObjectStore.get (normalizePath other) (files w) /\
    fst (readFile other w') = fst (readFile other w).
Proof.
  intros quiet Hne.
  destruct (deleteFile_quiet w quiet path) as (w' & Hdel & quiet' & _ & stored).
  assert (ObjectStore.get (normalizePath other) (files w')
          = ObjectStore.get (normalizePath other) (files w)) as Hsame.
  { rewrite stored. apply get_delete_ne. congruence. }
  exists w'. split; [done|]. split; [done|].
  destruct (readFile_quiet w quiet other) as (? & -> & _).
  destruct (readFile_quiet w' quiet' other) as (? & -> & _).
  simpl. by rewrite Hsame.
Qed.

Lemma X8_witness :
  faults (snd (mkdir "/docs" (oneFile "/docs/a.txt" "x"))) = [] /\
  normalizePath "/docs/a.txt" <> normalizePath "/docs/" /\
  exists w',
    deleteFile "/docs/" (snd (mkdir "/docs" (oneFile "/docs/a.txt" "x")))
      = (Resolved tt, w') /\
    ObjectStore.get (normalizePath "/docs/a.txt") (files w')
      = ObjectStore.get (normalizePath "/docs/a.txt")
          (files (snd (mkdir "/docs" (oneFile "/docs/a.txt" "x")))) /\
    fst (readFile "/docs/a.txt" w')
      = fst (readFile "/docs/a.txt"
               (snd (mkdir "/docs" (oneFile "/docs/a.txt" "x")))).
Proof.
  split; [reflexivity|]. split; [vm_compute; discriminate|].
  apply (X8_deleteFile_other_paths
           (snd (mkdir "/docs" (oneFile "/docs/a.txt" "x")))
           "/docs/" "/docs/a.txt");
    [reflexivity | vm_compute; discriminate].
Defined.

(** ** Metadata *)

Lemma stat_quiet w path :
  faults w = [] ->
  exists w',
    stat path w =
      (match ObjectStore.get (normalizePath path) (files w) with
       | Some file =>
           Resolved
             {| Entry.name := File.name file;
                Entry.path := File.path file;
                Entry.size := if Nat.eqb (File.size file) 0
                              then String.length (File.content file)
                              else File.size file;
                Entry.type := Js.or_else (File.type file) "file";
                Entry.createdAt := File.createdAt file;
                Entry.updatedAt := File.updatedAt file |}
       | None => Rejected (Error ("File not found: " +:+ normalizePath path))
       end, w') /\
    undisturbed w w'.
Proof.
  intros quiet.
  destruct w as [d s now fs log0]. simpl in quiet. subst fs.
  destruct d; js_unfold;
    destruct (ObjectStore.get (normalizePath path) s);
    eexists; (split; [reflexivity|done]).
Qed.

Lemma coherent_fileRecord path content now :
  coherent (fileRecord path content now).
Proof. split; [done|]. split; [done|]. by left. Qed.

Lemma coherent_dirRecord path now :
  coherent (dirRecord (directoryKey path) now).
Proof.
  split; [done|]. split; [done|]. right.
  split; [done|]. split; [done|].
  apply (listFiles_key path).
Qed.

Lemma reachable_coherent w : reachable w -> Forall coherent (files w).
Proof.
  apply reachable_keeps.
  - intros. apply coherent_fileRecord.
  - apply coherent_dirRecord.
Qed.

Lemma get_In key s f : ObjectStore.get key s = Some f -> In f s.
Proof. unfold ObjectStore.get. by intros [? _]%find_some. Qed.

(** X9: on a store that does not fault, after [writeFile path content]
    [exists] answers true for the path and [stat] resolves with the last
    segment of the normalized path as name, the normalized path, the
    length of the content as size, the type "file", and the time of the
    write as both [createdAt] and [updatedAt]. *)
Theorem X9_stat_after_writeFile (w : World) (path content : string) :
  faults w = [] ->
  exists w1 w2 w3,
    writeFile path content w = (Resolved tt, w1) /\
    exists_ path w1 = (Resolved true, w2) /\
    stat path w1 =
      (Resolved
         {| Entry.name :=
              default "" (Js.pop (Js.split Js.slash (normalizePath path)));
            Entry.path := normalizePath path;
            Entry.size := String.length content;
            Entry.type := "file";
            Entry.createdAt := clock w;
            Entry.updatedAt := clock w |}, w3).
Proof.
  intros quiet.
  destruct (writeFile_quiet w quiet path content)
    as (w1 & Hwrite & quiet1 & _ & stored).
  destruct (exists_quiet w1 quiet1 path) as (w2 & Hex & _).
  destruct (stat_quiet w1 path quiet1) as (w3 & Hstat & _).
  rewrite stored, get_put_fileRecord in Hex, Hstat.
  exists w1, w2, w3. split; [done|]. split.
  - by rewrite Hex, bool_decide_true by eauto.
  - rewrite Hstat. simpl. rewrite or_else_empty.
    by destruct content.
Qed.

Lemma X9_witness :
  faults (fresh today) = [] /\
  exists w1 w2 w3,
    writeFile "docs//note.txt" "hello" (fresh today) = (Resolved tt, w1) /\
    exists_ "docs//note.txt" w1 = (Resolved true, w2) /\
    stat "docs//note.txt" w1 =
      (Resolved
         {| Entry.name :=
              default ""
                (Js.pop (Js.split Js.slash (normalizePath "docs//note.txt")));
            Entry.path := normalizePath "docs//note.txt";
            Entry.size := String.length "hello";
            Entry.type := "file";
            Entry.createdAt := clock (fresh today);
            Entry.updatedAt := clock (fresh today) |}, w3).
Proof.
  split; [reflexivity|].
  apply (X9_stat_after_writeFile (fresh today) "docs//note.txt" "hello").
  reflexivity.
Defined.

(** X10: in every world that calls can lead to, on a store that does not
    fault, [getFileSize] of a path that holds a record resolves with the
    length of the content of that record. *)
Theorem X10_getFileSize_is_content_length
    (w : World) (path : string) (file : File.t) :
  reachable w ->
  faults w = [] ->
  ObjectStore.get (normalizePath path) (files w) = Some file ->
  exists w',
    getFileSize path w = (Resolved (String.length (File.content file)), w').
Proof.
  intros Hw quiet found.
  destruct (stat_quiet w path quiet) as (w' & Hstat & _).
  rewrite found in Hstat.
  exists w'. unfold getFileSize. rewrite rethrow_run, bind_run, Hstat.
  pose proof (proj1 (List.Forall_forall coherent (files w))
                (reachable_coherent w Hw)) as Hall.
  destruct (Hall file (get_In _ _ _ found)) as (Hsize & _).
  cbv [mret M_ret ret Entry.size]. rewrite Hsize.
  by destruct (String.length (File.content file)).
Qed.

Lemma X10_witness :
  reachable (after (CWriteFile "/a.txt" "hello") (fresh today)) /\
  faults (after (CWriteFile "/a.txt" "hello") (fresh today)) = [] /\
  ObjectStore.get (normalizePath "a.txt")
    (files (after (CWriteFile "/a.txt" "hello") (fresh today)))
    = Some (fileRecord "/a.txt" "hello" today) /\
  exists w',
    getFileSize "a.txt" (after (CWriteFile "/a.txt" "hello") (fresh today))
      = (Resolved (String.length (File.content (fileRecord "/a.txt" "hello" today))),
         w').
Proof.
  assert (reachable (after (CWriteFile "/a.txt" "hello") (fresh today)))
    as Hreach by apply reachable_after, reachable_fresh.
  split; [exact Hreach|]. split; [reflexivity|]. split; [reflexivity|].
  apply (X10_getFileSize_is_content_length
           (after (CWriteFile "/a.txt" "hello") (fresh today)) "a.txt"
           (fileRecord "/a.txt" "hello" today) Hreach); reflexivity.
Defined.

(** X11: on a store that does not fault, [stat] of a path that holds no
    record rejects with "File not found: " and the normalized path, and
    [getFileSize] rejects with that message behind "Failed to get file
    size for ", the path as given and a colon. *)
Theorem X11_stat_missing (w : World) (path : string) :
  faults w = [] ->
  ObjectStore.get (normalizePath path) (files w) = None ->
  exists w1 w2,
    stat path w =
      (Rejected (Error ("File not found: " +:+ normalizePath path)), w1) /\
    getFileSize path w =
      (Rejected
         (Error (("Failed to get file size for " +:+ path) +:+ ": "
                 +:+ "File not found: " +:+ normalizePath path)), w2).
Proof.
  intros quiet absent.
  destruct (stat_quiet w path quiet) as (w' & Hstat & _).
  rewrite absent in Hstat.
  exists w', w'. split; [done|].
  unfold getFileSize. by rewrite rethrow_run, bind_run, Hstat.
Qed.

Lemma X11_witness :
  faults (fresh today) = [] /\
  ObjectStore.get (normalizePath "a.txt") (files (fresh today)) = None /\
  exists w1 w2,
    stat "a.txt" (fresh today) =
      (Rejected (Error ("File not found: " +:+ normalizePath "a.txt")), w1) /\
    getFileSize "a.txt" (fresh today) =
      (Rejected
         (Error (("Failed to get file size for " +:+ "a.txt") +:+ ": "
                 +:+ "File not found: " +:+ normalizePath "a.txt")), w2).
Proof.
  split; [reflexivity|]. split; [reflexivity|].
  apply (X11_stat_missing (fresh today) "a.txt"); reflexivity.
Defined.

(** ** Directories as records *)

Lemma directoryKey_canonical path : canonical (directoryKey path).
Proof. apply canonical_add_slash, normalizePath_canonical. Qed.

Lemma normalizePath_directoryKey path :
  normalizePath (directoryKey path) = directoryKey path.
Proof. apply normalizePath_fixed, directoryKey_canonical. Qed.

Lemma mkdir_quiet_key w path :
  faults w = [] ->
  exists w',
    mkdir path w = (Resolved tt, w') /\
    faults w' = [] /\ clock w' = clock w /\
    files w' =
      ObjectStore.put (dirRecord (directoryKey path) (clock w)) (files w).
Proof. intros quiet. exact (mkdir_quiet w quiet path). Qed.

Lemma get_put_dirRecord key now s :
  ObjectStore.get key (ObjectStore.put (dirRecord key now) s)
  = Some (dirRecord key now).
Proof. exact (get_put_eq (dirRecord key now) s). Qed.

Lemma length_append (a b : string) :
  String.length (a +:+ b) = String.length a + String.length b.
Proof.
  induction a as [|c a IH]; [done|].
  rewrite append_cons. simpl. by rewrite IH.
Qed.

Lemma collapse_add_slash s :
  Js.endsWithSlash (Js.collapseSlashes s) = false ->
  Js.collapseSlashes (s +:+ "/") = Js.collapseSlashes s +:+ "/".
Proof.
  induction s as [|c s IH]; [done|].
  rewrite append_cons.
  rewrite (collapse_cons c s), (collapse_cons c (s +:+ "/")).
  destruct s as [|c' s].
  - rewrite append_nil. case_bool_decide as Hc.
    + subst c. intros H. vm_compute in H. discriminate.
    + done.
  - rewrite (append_cons c' s "/").
    rewrite <- (append_cons c' s "/").
    destruct (collapse_head c' s) as [r Hr].
    case_bool_decide as Hc.
    + case_bool_decide as Hc'; [done|].
      rewrite endsWithSlash_cons, Hr, <- Hr. intros H.
      by rewrite (IH H), append_cons.
    + rewrite endsWithSlash_cons, Hr, <- Hr. intros H.
      by rewrite (IH H), append_cons.
Qed.

Lemma startsWith_add_slash c path :
  Js.startsWith (String c path +:+ "/") "/" = Js.startsWith (String c path) "/".
Proof.
  unfold Js.startsWith.
  destruct (String.prefix "/" (String c path)) eqn:E.
  - apply prefix_spec in E as [after E]. apply prefix_spec.
    exists (after +:+ "/"). by rewrite E.
  - apply not_true_iff_false. intros [after H]%prefix_spec.
    rewrite (append_cons c path "/") in H.
    change ("/" +:+ after) with (String "/" after) in H.
    injection H as -> _.
    assert (String.prefix "/" (String "/" path) = true) as E'
      by (apply prefix_spec; by exists path).
    congruence.
Qed.

Lemma normalizePath_add_slash path :
  Js.endsWithSlash (normalizePath path) = false ->
  normalizePath (path +:+ "/") = normalizePath path +:+ "/".
Proof.
  destruct path as [|c path]; [done|].
  unfold normalizePath. rewrite startsWith_add_slash.
  destruct (negb (Js.startsWith (String c path) "/")).
  - exact (collapse_add_slash ("/" +:+ String c path)).
  - exact (collapse_add_slash (String c path)).
Qed.

(** X12: on a store that does not fault, [mkdir] stores under the
    normalized path with a slash at its end a record of type "directory"
    with empty content and size zero, whose name is "root" for the root;
    [exists] finds it under that key and [readFile] resolves with the
    empty string for it. *)
Theorem X12_mkdir_record (w : World) (path : string) :
  faults w = [] ->
  exists w1 w2 w3,
    mkdir path w = (Resolved tt, w1) /\
    isDirectory (directoryKey path) = true /\
    ObjectStore.get (directoryKey path) (files w1)
      = Some (dirRecord (directoryKey path) (clock w)) /\
    File.type (dirRecord (directoryKey path) (clock w)) = "directory" /\
    File.size (dirRecord (directoryKey path) (clock w)) = 0 /\
    (directoryKey path = "/" ->
     File.name (dirRecord (directoryKey path) (clock w)) = "root") /\
    exists_ (directoryKey path) w1 = (Resolved true, w2) /\
    readFile (directoryKey path) w1 = (Resolved "", w3).
Proof.
  intros quiet.
  destruct (mkdir_quiet_key w path quiet) as (w1 & Hmk & quiet1 & _ & stored).
  destruct (exists_quiet w1 quiet1 (directoryKey path)) as (w2 & Hex & _).
  destruct (readFile_quiet w1 quiet1 (directoryKey path)) as (w3 & Hread & _).
  rewrite normalizePath_directoryKey, stored, get_put_dirRecord in Hex, Hread.
  exists w1, w2, w3. split; [done|].
  split; [apply (listFiles_key path)|].
  split; [by rewrite stored, get_put_dirRecord|].
  split; [done|]. split; [done|].
  split; [by intros ->|].
  split; [by rewrite Hex, bool_decide_true by eauto|done].
Qed.

Lemma X12_witness :
  faults (fresh today) = [] /\
  exists w1 w2 w3,
    mkdir "/images/photos" (fresh today) = (Resolved tt, w1) /\
    isDirectory (directoryKey "/images/photos") = true /\
    ObjectStore.get (directoryKey "/images/photos") (files w1)
      = Some (dirRecord (directoryKey "/images/photos") (clock (fresh today))) /\
    File.type (dirRecord (directoryKey "/images/photos") (clock (fresh today)))
      = "directory" /\
    File.size (dirRecord (directoryKey "/images/photos") (clock (fresh today)))
      = 0 /\
    (directoryKey "/images/photos" = "/" ->
     File.name (dirRecord (directoryKey "/images/photos") (clock (fresh today)))
       = "root") /\
    exists_ (directoryKey "/images/photos") w1 = (Resolved true, w2) /\
    readFile (directoryKey "/images/photos") w1 = (Resolved "", w3).
Proof.
  split; [reflexivity|].
  apply (X12_mkdir_record (fresh today) "/images/photos"). reflexivity.
Defined.

(** X13: on a store that does not fault, when the normalized path does
    not end in a slash and holds no record, [mkdir path] resolves, yet
    [exists path] still answers false: the directory is found only under
    the path with the slash at its end. *)
Theorem X13_mkdir_not_found_without_slash (w : World) (path : string) :
  faults w = [] ->
  Js.endsWithSlash (normalizePath path) = false ->
  ObjectStore.get (normalizePath path) (files w) = None ->
  exists w1 w2 w3,
    mkdir path w = (Resolved tt, w1) /\
    exists_ path w1 = (Resolved false, w2) /\
    exists_ (path +:+ "/") w1 = (Resolved true, w3).
Proof.
  intros quiet Hends absent.
  destruct (mkdir_quiet_key w path quiet) as (w1 & Hmk & quiet1 & _ & stored).
  destruct (exists_quiet w1 quiet1 path) as (w2 & Hex & _).
  destruct (exists_quiet w1 quiet1 (path +:+ "/")) as (w3 & Hex' & _).
  assert (directoryKey path = normalizePath path +:+ "/") as Hkey
    by (unfold directoryKey; by rewrite Hends).
  assert (normalizePath (path +:+ "/") = directoryKey path) as Hnorm.
  { rewrite Hkey. apply normalizePath_add_slash, Hends. }
  exists w1, w2, w3. split; [done|]. split.
  - rewrite Hex, stored, get_put_ne, absent; [done|].
    simpl. rewrite Hkey. intros Heq.
    apply (f_equal String.length) in Heq.
    rewrite length_append in Heq. simpl in Heq. lia.
  - rewrite Hex', Hnorm, stored, get_put_dirRecord.
    by rewrite bool_decide_true by eauto.
Qed.

Lemma X13_witness :
  faults (fresh today) = [] /\
  Js.endsWithSlash (normalizePath "/docs") = false /\
  ObjectStore.get (normalizePath "/docs") (files (fresh today)) = None /\
  exists w1 w2 w3,
    mkdir "/docs" (fresh today) = (Resolved tt, w1) /\
    exists_ "/docs" w1 = (Resolved false, w2) /\
    exists_ ("/docs" +:+ "/") w1 = (Resolved true, w3).
Proof.
  split; [reflexivity|]. split; [reflexivity|]. split; [reflexivity|].
  apply (X13_mkdir_not_found_without_slash (fresh today) "/docs");
    reflexivity.
Defined.

(** X14: on a store that does not fault, a file written at a path whose
    normalized form ends in a slash shares its key with the directory of
    that path: [mkdir] of the path then replaces the file, its content is
    lost and [readFile] resolves with the empty string. *)
Theorem X14_mkdir_replaces_file (w : World) (path content : string) :
  faults w = [] ->
  Js.endsWithSlash (normalizePath path) = true ->
  exists w1 w2 w3,
    writeFile path content w = (Resolved tt, w1) /\
    mkdir path w1 = (Resolved tt, w2) /\
    ObjectStore.get (normalizePath path) (files w2)
      = Some (dirRecord (normalizePath path) (clock w)) /\
    readFile path w2 = (Resolved "", w3).
Proof.
  intros quiet Hends.
  destruct (writeFile_quiet w quiet path content)
    as (w1 & Hwrite & quiet1 & now1 & _).
  destruct (mkdir_quiet_key w1 path quiet1) as (w2 & Hmk & quiet2 & _ & stored).
  destruct (readFile_quiet w2 quiet2 path) as (w3 & Hread & _).
  assert (directoryKey path = normalizePath path) as Hkey
    by (unfold directoryKey; by rewrite Hends).
  rewrite Hkey, now1 in stored.
  exists w1, w2, w3. split; [done|]. split; [done|].
  split; [by rewrite stored, get_put_dirRecord|].
  by rewrite Hread, stored, get_put_dirRecord.
Qed.

Lemma X14_witness :
  faults (fresh today) = [] /\
  Js.endsWithSlash (normalizePath "/docs/") = true /\
  exists w1 w2 w3,
    writeFile "/docs/" "kept?" (fresh today) = (Resolved tt, w1) /\
    mkdir "/docs/" w1 = (Resolved tt, w2) /\
    ObjectStore.get (normalizePath "/docs/") (files w2)
      = Some (dirRecord (normalizePath "/docs/") (clock (fresh today))) /\
    readFile "/docs/" w2 = (Resolved "", w3).
Proof.
  split; [reflexivity|]. split; [reflexivity|].
  apply (X14_mkdir_replaces_file (fresh today) "/docs/" "kept?");
    reflexivity.
Defined.

(** ** Copying, moving, renaming, appending *)

(** X15: on a store that does not fault, when the source holds a record,
    [copyFile] resolves; afterwards [readFile] resolves with the content
    of the source for the destination and for the source alike. *)
Theorem X15_copyFile_copies
    (w : World) (source destination : string) (file : File.t) :
  faults w = [] ->
  ObjectStore.get (normalizePath source) (files w) = Some file ->
  exists w1 w2 w3,
    copyFile source destination w = (Resolved tt, w1) /\
    readFile destination w1 = (Resolved (File.content file), w2) /\
    readFile source w1 = (Resolved (File.content file), w3).
Proof.
  intros quiet found.
  destruct (copyFile_quiet w source destination file quiet found)
    as (w1 & Hcopy & quiet1 & _ & stored).
  destruct (readFile_quiet w1 quiet1 destination) as (w2 & Hdst & _).
  destruct (readFile_quiet w1 quiet1 source) as (w3 & Hsrc & _).
  exists w1, w2, w3. split; [done|]. split.
  - rewrite Hdst, stored, get_put_fileRecord. simpl. by rewrite or_else_empty.
  - rewrite Hsrc, stored.
    destruct (decide (normalizePath destination = normalizePath source))
      as [Heq|Hne].
    + rewrite Heq, get_put_fileRecord. simpl. by rewrite or_else_empty.
    + rewrite get_put_ne by done. by rewrite found.
Qed.

Lemma X15_witness :
  faults (oneFile "/original.txt" "Original content") = [] /\
  ObjectStore.get (normalizePath "/original.txt")
    (files (oneFile "/original.txt" "Original content"))
    = Some (fileRecord "/original.txt" "Original content" yesterday) /\
  exists w1 w2 w3,
    copyFile "/original.txt" "/copy.txt"
      (oneFile "/original.txt" "Original content") = (Resolved tt, w1) /\
    readFile "/copy.txt" w1 =
      (Resolved
         (File.content (fileRecord "/original.txt" "Original content" yesterday)),
       w2) /\
    readFile "/original.txt" w1 =
      (Resolved
         (File.content (fileRecord "/original.txt" "Original content" yesterday)),
       w3).
Proof.
  split; [reflexivity|]. split; [reflexivity|].
  apply (X15_copyFile_copies (oneFile "/original.txt" "Original content")
           "/original.txt" "/copy.txt"
           (fileRecord "/original.txt" "Original content" yesterday));
    reflexivity.
Defined.

(** X16: on a store that does not fault, [copyFile] from a path that
    holds no record rejects with "Failed to copy file from ", the two
    paths as given, and "File not found: " with the normalized source;
    no record is changed, so the destination is as it was. *)
Theorem X16_copyFile_missing_source (w : World) (source destination : string) :
  faults w = [] ->
  ObjectStore.get (normalizePath source) (files w) = None ->
  exists w1,
    copyFile source destination w =
      (Rejected
         (Error
            (("Failed to copy file from " +:+ source +:+ " to "
              +:+ destination)
             +:+ ": " +:+ "File not found: " +:+ normalizePath source)),
       w1) /\
    files w1 = files w.
Proof.
  intros quiet absent.
  destruct (readFile_quiet w quiet source) as (w1 & Hread & _ & _ & same).
  rewrite absent in Hread.
  exists w1. split; [|done].
  unfold copyFile. by rewrite rethrow_run, bind_run, Hread.
Qed.

Lemma X16_witness :
  faults (oneFile "/d" "x") = [] /\
  ObjectStore.get (normalizePath "/s") (files (oneFile "/d" "x")) = None /\
  exists w1,
    copyFile "/s" "/d" (oneFile "/d" "x") =
      (Rejected
         (Error
            (("Failed to copy file from " +:+ "/s" +:+ " to " +:+ "/d")
             +:+ ": " +:+ "File not found: " +:+ normalizePath "/s")),
       w1) /\
    files w1 = files (oneFile "/d" "x").
Proof.
  split; [reflexivity|]. split; [reflexivity|].
  apply (X16_copyFile_missing_source (oneFile "/d" "x") "/s" "/d");
    reflexivity.
Defined.

(** X17: on a store that does not fault, when the source holds a record
    and the destination normalizes to another path, [moveFile] resolves;
    afterwards [exists] answers false for the source and [readFile]
    resolves with the content of the source for the destination. *)
Theorem X17_moveFile_moves
    (w : World) (source destination : string) (file : File.t) :
  faults w = [] ->
  normalizePath source <> normalizePath destination ->
  ObjectStore.get (normalizePath source) (files w) = Some file ->
  exists w1 w2 w3,
    moveFile source destination w = (Resolved tt, w1) /\
    exists_ source w1 = (Resolved false, w2) /\
    readFile destination w1 = (Resolved (File.content file), w3).
Proof.
  intros quiet Hne found.
  destruct (moveFile_quiet w source destination file quiet found)
    as (w1 & Hmove & quiet1 & _ & stored).
  destruct (exists_quiet w1 quiet1 source) as (w2 & Hex & _).
  destruct (readFile_quiet w1 quiet1 destination) as (w3 & Hread & _).
  exists w1, w2, w3. split; [done|]. split.
  - by rewrite Hex, stored, get_delete_eq.
  - rewrite Hread, stored, get_delete_ne by done.
    rewrite get_put_fileRecord. simpl. by rewrite or_else_empty.
Qed.

Lemma X17_witness :
  faults (oneFile "/source.txt" "Source content") = [] /\
  normalizePath "/source.txt" <> normalizePath "/destination.txt" /\
  ObjectStore.get (normalizePath "/source.txt")
    (files (oneFile "/source.txt" "Source content"))
    = Some (fileRecord "/source.txt" "Source content" yesterday) /\
  exists w1 w2 w3,
    moveFile "/source.txt" "/destination.txt"
      (oneFile "/source.txt" "Source content") = (Resolved tt, w1) /\
    exists_ "/source.txt" w1 = (Resolved false, w2) /\
    readFile "/destination.txt" w1 =
      (Resolved
         (File.content (fileRecord "/source.txt" "Source content" yesterday)),
       w3).
Proof.
  split; [reflexivity|]. split; [vm_compute; discriminate|].
  split; [reflexivity|].
  apply (X17_moveFile_moves (oneFile "/source.txt" "Source content")
           "/source.txt" "/destination.txt"
           (fileRecord "/source.txt" "Source content" yesterday));
    [reflexivity | vm_compute; discriminate | reflexivity].
Defined.

(** X18: on a store that does not fault, when the old path holds a
    record and the new path normalizes to another one, [renameFile]
    resolves; afterwards [readFile] rejects for the old path with "File
    not found" and resolves with the content for the new path. *)
Theorem X18_renameFile_renames
    (w : World) (oldPath newPath : string) (file : File.t) :
  faults w = [] ->
  normalizePath oldPath <> normalizePath newPath ->
  ObjectStore.get (normalizePath oldPath) (files w) = Some file ->
  exists w1 w2 w3,
    renameFile oldPath newPath w = (Resolved tt, w1) /\
    readFile oldPath w1 =
      (Rejected (Error ("File not found: " +:+ normalizePath oldPath)), w2) /\
    readFile newPath w1 = (Resolved (File.content file), w3).
Proof.
  intros quiet Hne found.
  destruct (moveFile_quiet w oldPath newPath file quiet found)
    as (w1 & Hmove & quiet1 & _ & stored).
  destruct (readFile_quiet w1 quiet1 oldPath) as (w2 & Hold & _).
  destruct (readFile_quiet w1 quiet1 newPath) as (w3 & Hnew & _).
  exists w1, w2, w3. split; [|split].
  - unfold renameFile. by rewrite rethrow_run, Hmove.
  - by rewrite Hold, stored, get_delete_eq.
  - rewrite Hnew, stored, get_delete_ne by done.
    rewrite get_put_fileRecord. simpl. by rewrite or_else_empty.
Qed.

Lemma X18_witness :
  faults (oneFile "/oldname.txt" "Original name") = [] /\
  normalizePath "/oldname.txt" <> normalizePath "/newname.txt" /\
  ObjectStore.get (normalizePath "/oldname.txt")
    (files (oneFile "/oldname.txt" "Original name"))
    = Some (fileRecord "/oldname.txt" "Original name" yesterday) /\
  exists w1 w2 w3,
    renameFile "/oldname.txt" "/newname.txt"
      (oneFile "/oldname.txt" "Original name") = (Resolved tt, w1) /\
    readFile "/oldname.txt" w1 =
      (Rejected (Error ("File not found: " +:+ normalizePath "/oldname.txt")),
       w2) /\
    readFile "/newname.txt" w1 =
      (Resolved
         (File.content (fileRecord "/oldname.txt" "Original name" yesterday)),
       w3).
Proof.
  split; [reflexivity|]. split; [vm_compute; discriminate|].
  split; [reflexivity|].
  apply (X18_renameFile_renames (oneFile "/oldname.txt" "Original name")
           "/oldname.txt" "/newname.txt"
           (fileRecord "/oldname.txt" "Original name" yesterday));
    [reflexivity | vm_compute; discriminate | reflexivity].
Defined.

(** X19: on a store that does not fault, [appendFile] to a path that
    holds a record resolves, and [readFile] then resolves with the old
    content followed by the appended one. *)
Theorem X19_appendFile_existing
    (w : World) (path content : string) (file : File.t) :
  faults w = [] ->
  ObjectStore.get (normalizePath path) (files w) = Some file ->
  exists w1 w2,
    appendFile path content w = (Resolved tt, w1) /\
    readFile path w1 = (Resolved (File.content file +:+ content), w2).
Proof.
  intros quiet found.
  destruct (appendFile_quiet w path content quiet)
    as (w1 & Happend & quiet1 & _ & stored).
  destruct (readFile_quiet w1 quiet1 path) as (w2 & Hread & _).
  exists w1, w2. split; [done|].
  rewrite Hread, stored, found, get_put_fileRecord. simpl.
  by rewrite or_else_empty.
Qed.

Lemma X19_witness :
  faults (oneFile "/log.txt" "first;") = [] /\
  ObjectStore.get (normalizePath "log.txt") (files (oneFile "/log.txt" "first;"))
    = Some (fileRecord "/log.txt" "first;" yesterday) /\
  exists w1 w2,
    appendFile "log.txt" "second;" (oneFile "/log.txt" "first;")
      = (Resolved tt, w1) /\
    readFile "log.txt" w1 =
      (Resolved
         (File.content (fileRecord "/log.txt" "first;" yesterday)
          +:+ "second;"), w2).
Proof.
  split; [reflexivity|]. split; [reflexivity|].
  apply (X19_appendFile_existing (oneFile "/log.txt" "first;") "log.txt"
           "second;" (fileRecord "/log.txt" "first;" yesterday));
    reflexivity.
Defined.

(** ** Lines *)

Lemma split_cons sep c s :
  Js.split sep (String c s) =
  if bool_decide (c = sep) then EmptyString :: Js.split sep s
  else
    match Js.split sep s with
    | piece :: rest => String c piece :: rest
    | [] => [String c EmptyString]
    end.
Proof. reflexivity. Qed.

Lemma oneLine_cons c s :
  oneLine (String c s) -> c <> newline /\ oneLine s.
Proof.
  intros H. split.
  - intros ->. by apply (H "" s).
  - intros before after ->. by apply (H (String c before) after).
Qed.

Lemma split_oneLine s : oneLine s -> Js.split newline s = [s].
Proof.
  induction s as [|c s IH]; [done|].
  intros [Hc Hs]%oneLine_cons.
  by rewrite split_cons, bool_decide_false, (IH Hs) by done.
Qed.

Lemma split_line_break s t :
  oneLine s ->
  Js.split newline (s +:+ String newline t) = s :: Js.split newline t.
Proof.
  induction s as [|c s IH].
  - intros _. rewrite append_nil, split_cons. by rewrite bool_decide_true.
  - intros [Hc Hs]%oneLine_cons.
    by rewrite append_cons, split_cons, bool_decide_false, (IH Hs) by done.
Qed.

Lemma split_join lines :
  lines <> [] -> Forall oneLine lines ->
  Js.split newline (Js.join (String newline "") lines) = lines.
Proof.
  intros Hne Hall. induction Hall as [|x xs Hx Hxs IH]; [done|].
  destruct xs as [|y xs].
  - by apply split_oneLine.
  - change (Js.join (String newline "") (x :: y :: xs))
      with (x +:+ String newline (Js.join (String newline "") (y :: xs))).
    rewrite split_line_break by done. by rewrite IH.
Qed.

(** X20: on a store that does not fault, [writeLines] of a non-empty
    array of lines, none of which holds a line break, followed by
    [readLines] of the same path resolves with that array. *)
Theorem X20_writeLines_readLines (w : World) (path : string) (lines : list string) :
  faults w = [] ->
  lines <> [] ->
  Forall oneLine lines ->
  exists w1 w2,
    writeLines path (inl lines) w = (Resolved tt, w1) /\
    readLines path w1 = (Resolved lines, w2).
Proof.
  intros quiet Hne Hall.
  destruct (writeFile_quiet w quiet path (Js.join (String newline "") lines))
    as (w1 & Hwrite & quiet1 & _ & stored).
  destruct (readFile_quiet w1 quiet1 path) as (w2 & Hread & _).
  exists w1, w2. split.
  - unfold writeLines. by rewrite rethrow_run, Hwrite.
  - unfold readLines. rewrite rethrow_run, bind_run, Hread.
    rewrite stored, get_put_fileRecord. simpl.
    rewrite or_else_empty. cbv [mret M_ret ret].
    by rewrite split_join.
Qed.

Lemma X20_witness :
  faults (fresh today) = [] /\
  ["Item 1"; "Item 2"; "Item 3"] <> [] /\
  Forall oneLine ["Item 1"; "Item 2"; "Item 3"] /\
  exists w1 w2,
    writeLines "/list.txt" (inl ["Item 1"; "Item 2"; "Item 3"]) (fresh today)
      = (Resolved tt, w1) /\
    readLines "/list.txt" w1 = (Resolved ["Item 1"; "Item 2"; "Item 3"], w2).
Proof.
  assert (forall s, Js.includes s (String newline "") = false -> oneLine s)
    as Hline.
  { intros s Hs before after ->.
    assert (Js.includes (before +:+ String newline after) (String newline "")
            = true) as Hin by (apply includes_spec; by exists before, after).
    congruence. }
  assert (Forall oneLine ["Item 1"; "Item 2"; "Item 3"]) as Hall
    by (repeat constructor; apply Hline; reflexivity).
  split; [reflexivity|]. split; [discriminate|]. split; [exact Hall|].
  apply (X20_writeLines_readLines (fresh today) "/list.txt"
           ["Item 1"; "Item 2"; "Item 3"]);
    [reflexivity | discriminate | exact Hall].
Defined.

(** X21: on a store that does not fault, [writeLines] of a string stores
    the string as it is, and [writeLines] of the empty array stores the
    empty content, for which [readLines] resolves with one empty line. *)
Theorem X21_writeLines_edges (w : World) (path text : string) :
  faults w = [] ->
  (exists w1 w2,
     writeLines path (inr text) w = (Resolved tt, w1) /\
     readFile path w1 = (Resolved text, w2)) /\
  (exists w1 w2 w3,
     writeLines path (inl []) w = (Resolved tt, w1) /\
     readFile path w1 = (Resolved "", w2) /\
     readLines path w1 = (Resolved [""], w3)).
Proof.
  intros quiet. split.
  - destruct (writeFile_quiet w quiet path text)
      as (w1 & Hwrite & quiet1 & _ & stored).
    destruct (readFile_quiet w1 quiet1 path) as (w2 & Hread & _).
    exists w1, w2. split.
    + unfold writeLines. by rewrite rethrow_run, Hwrite.
    + rewrite Hread, stored, get_put_fileRecord. simpl.
      by rewrite or_else_empty.
  - destruct (writeFile_quiet w quiet path "")
      as (w1 & Hwrite & quiet1 & _ & stored).
    destruct (readFile_quiet w1 quiet1 path) as (w2 & Hread & _).
    rewrite stored, get_put_fileRecord in Hread. simpl in Hread.
    exists w1, w2, w2. split; [|split; [done|]].
    + change (writeLines path (inl []) w)
        with (rethrow ("Failed to write lines to " +:+ path)
                (writeFile path "") w).
      by rewrite rethrow_run, Hwrite.
    + unfold readLines. by rewrite rethrow_run, bind_run, Hread.
Qed.

Lemma X21_witness :
  faults (fresh today) = [] /\
  (exists w1 w2,
     writeLines "/a.txt" (inr "one line") (fresh today) = (Resolved tt, w1) /\
     readFile "/a.txt" w1 = (Resolved "one line", w2)) /\
  (exists w1 w2 w3,
     writeLines "/a.txt" (inl []) (fresh today) = (Resolved tt, w1) /\
     readFile "/a.txt" w1 = (Resolved "", w2) /\
     readLines "/a.txt" w1 = (Resolved [""], w3)).
Proof.
  split; [reflexivity|].
  apply (X21_writeLines_edges (fresh today) "/a.txt" "one line").
  reflexivity.
Defined.

(** ** Clearing *)

(** X22: on a store that does not fault, [clear] resolves and leaves no
    record: [getAllFiles] resolves with the empty list, and for every
    path [exists] answers false. *)
Theorem X22_clear_empties (w : World) (path : string) :
  faults w = [] ->
  exists w1 w2 w3,
    clear w = (Resolved tt, w1) /\
    files w1 = [] /\
    getAllFiles w1 = (Resolved [], w2) /\
    exists_ path w1 = (Resolved false, w3).
Proof.
  intros quiet.
  assert (exists w1, clear w = (Resolved tt, w1) /\ faults w1 = [] /\
                     files w1 = []) as (w1 & Hclear & quiet1 & empty).
  { destruct w as [d s now fs log0]. simpl in quiet. subst fs.
    destruct d; js_unfold; eauto. }
  destruct (getAllFiles_quiet w1 quiet1) as (w2 & Hall & _).
  destruct (exists_quiet w1 quiet1 path) as (w3 & Hex & _).
  rewrite empty in Hall, Hex.
  exists w1, w2, w3. by repeat split.
Qed.

Lemma X22_witness :
  faults (oneFile "/a.txt" "x") = [] /\
  exists w1 w2 w3,
    clear (oneFile "/a.txt" "x") = (Resolved tt, w1) /\
    files w1 = [] /\
    getAllFiles w1 = (Resolved [], w2) /\
    exists_ "/a.txt" w1 = (Resolved false, w3).
Proof.
  split; [reflexivity|].
  apply (X22_clear_empties (oneFile "/a.txt" "x") "/a.txt"). reflexivity.
Defined.

(** ** Operations that only read *)

(** X23: whatever the store does and whatever they answer, [readFile],
    [exists], [stat], [getFileSize], [listFiles], [getAllFiles],
    [search] and [readLines] change no record. *)
Theorem X23_reading_changes_nothing (w : World) (path : string) :
  files (snd (readFile path w)) = files w /\
  files (snd (exists_ path w)) = files w /\
  files (snd (stat path w)) = files w /\
  files (snd (getFileSize path w)) = files w /\
  files (snd (listFiles path w)) = files w /\
  files (snd (getAllFiles w)) = files w /\
  files (snd (search path w)) = files w /\
  files (snd (readLines path w)) = files w.
Proof.
  repeat split;
    world_cases w; cbv [getFileSize search readLines]; js_unfold;
    try destruct (ObjectStore.get (normalizePath path) _);
    reflexivity.
Qed.

(** ** What every record has *)

(** X24: in every world that calls can lead to, every record has the
    length of its content as size and one time as [createdAt] and
    [updatedAt]; its type is "file", or it is "directory" and then the
    content is empty and the path ends in a slash. *)
Theorem X24_records_coherent (w : World) (file : File.t) :
  reachable w ->
  In file (files w) ->
  File.size file = String.length (File.content file) /\
  File.createdAt file = File.updatedAt file /\
  (File.type file = "file" \/
   File.type file = "directory" /\ File.content file = "" /\
   isDirectory (File.path file) = true).
Proof.
  intros Hw Hin.
  exact (proj1 (List.Forall_forall coherent (files w))
           (reachable_coherent w Hw) file Hin).
Qed.

Lemma X24_witness :
  reachable (after (CMkdir "/docs") (after (CWriteFile "/a.txt" "x") (fresh today))) /\
  In (dirRecord "/docs/" today)
    (files (after (CMkdir "/docs")
              (after (CWriteFile "/a.txt" "x") (fresh today)))) /\
  File.size (dirRecord "/docs/" today)
    = String.length (File.content (dirRecord "/docs/" today)) /\
  File.createdAt (dirRecord "/docs/" today)
    = File.updatedAt (dirRecord "/docs/" today) /\
  (File.type (dirRecord "/docs/" today) = "file" \/
   File.type (dirRecord "/docs/" today) = "directory" /\
   File.content (dirRecord "/docs/" today) = "" /\
   isDirectory (File.path (dirRecord "/docs/" today)) = true).
Proof.
  assert (reachable (after (CMkdir "/docs")
                       (after (CWriteFile "/a.txt" "x") (fresh today))))
    as Hreach by (do 2 apply reachable_after; apply reachable_fresh).
  assert (In (dirRecord "/docs/" today)
            (files (after (CMkdir "/docs")
                      (after (CWriteFile "/a.txt" "x") (fresh today)))))
    as Hin by (vm_compute; right; left; reflexivity).
  split; [exact Hreach|]. split; [exact Hin|].
  exact (X24_records_coherent _ _ Hreach Hin).
Defined.

(** ** Listing and searching *)

Lemma In_put f s : In f (ObjectStore.put f s).
Proof.
  induction s as [|g s IH]; simpl; [by left|].
  destruct (String.compare (File.path f) (File.path g)); simpl; auto.
Qed.

(** X25: on a store that does not fault, a file written at a path whose
    [getDir] is the root is listed by [listFiles "/"]: the listing holds
    the metadata of the record just stored. *)
Theorem X25_listFiles_root_lists (w : World) (path content : string) :
  faults w = [] ->
  getDir (normalizePath path) = "/" ->
  exists w1 w2 listing,
    writeFile path content w = (Resolved tt, w1) /\
    listFiles "/" w1 = (Resolved listing, w2) /\
    In (metadata (fileRecord (normalizePath path) content (clock w))) listing.
Proof.
  intros quiet Hroot.
  destruct (writeFile_quiet w quiet path content)
    as (w1 & Hwrite & quiet1 & _ & stored).
  destruct (listFiles_quiet w1 quiet1 "/") as (w2 & Hlist & _).
  eexists w1, w2, _. split; [done|]. split; [exact Hlist|].
  apply in_map. unfold ObjectStore.onlyDir. apply filter_In. split.
  - rewrite stored. apply In_put.
  - apply String.eqb_eq. simpl. by rewrite Hroot.
Qed.

Lemma X25_witness :
  faults (fresh today) = [] /\
  getDir (normalizePath "hello.txt") = "/" /\
  exists w1 w2 listing,
    writeFile "hello.txt" "Hello World!" (fresh today) = (Resolved tt, w1) /\
    listFiles "/" w1 = (Resolved listing, w2) /\
    In (metadata (fileRecord (normalizePath "hello.txt") "Hello World!"
                    (clock (fresh today)))) listing.
Proof.
  split; [reflexivity|]. split; [reflexivity|].
  apply (X25_listFiles_root_lists (fresh today) "hello.txt" "Hello World!");
    reflexivity.
Defined.

Lemma X26_witness :
  reachable (after (CWriteFile "/docs/file1.txt" "Content 1") (fresh today)) /\
  faults (after (CWriteFile "/docs/file1.txt" "Content 1") (fresh today)) = [] /\
  normalizePath "/docs/" <> "/" /\
  exists w',
    listFiles "/docs/"
      (after (CWriteFile "/docs/file1.txt" "Content 1") (fresh today))
      = (Resolved [], w').
Proof.
  assert (reachable
            (after (CWriteFile "/docs/file1.txt" "Content 1") (fresh today)))
    as Hreach by apply reachable_after, reachable_fresh.
  split; [exact Hreach|]. split; [reflexivity|].
  split; [vm_compute; discriminate|].
  apply (listFiles_below_root_empty _ "/docs/" Hreach);
    [reflexivity | vm_compute; discriminate].
Defined.

Lemma includes_empty s : Js.includes s "" = true.
Proof. rewrite includes_unfold. by destruct s. Qed.

Lemma filter_all {A} (test : A -> bool) l :
  (forall x, test x = true) -> List.filter test l = l.
Proof.
  intros Hall. induction l as [|x l IH]; [done|].
  simpl. by rewrite Hall, IH.
Qed.

(** X27: on a store that does not fault, [search] for the empty string
    resolves with the whole scan of [getAllFiles]. *)
Theorem X27_search_empty_query (w : World) :
  faults w = [] ->
  exists w1 w2 all,
    getAllFiles w = (Resolved all, w1) /\
    search "" w = (Resolved all, w2).
Proof.
  intros quiet.
  destruct (getAllFiles_quiet w quiet) as (w1 & Hscan & _).
  eexists w1, w1, _. split; [exact Hscan|].
  unfold search. rewrite rethrow_run, bind_run, Hscan.
  cbv [mret M_ret ret]. rewrite filter_all; [done|].
  intros x. unfold searchHit. change (Js.toLowerCase "") with "".
  by rewrite includes_empty.
Qed.

Lemma X27_witness :
  faults (oneFile "/a.txt" "x") = [] /\
  exists w1 w2 all,
    getAllFiles (oneFile "/a.txt" "x") = (Resolved all, w1) /\
    search "" (oneFile "/a.txt" "x") = (Resolved all, w2).
Proof.
  split; [reflexivity|].
  apply (X27_search_empty_query (oneFile "/a.txt" "x")). reflexivity.
Defined.

Lemma lowerChar_idempotent c : Js.lowerChar (Js.lowerChar c) = Js.lowerChar c.
Proof. by destruct c as [[] [] [] [] [] [] [] []]. Qed.

Lemma toLowerCase_idempotent s :
  Js.toLowerCase (Js.toLowerCase s) = Js.toLowerCase s.
Proof.
  induction s as [|c s IH]; [done|].
  simpl. by rewrite lowerChar_idempotent, IH.
Qed.

(** X28: on a store that does not fault, [search] does not see the case
    of the query: the query and its lower-cased form find the same
    entries. *)
Theorem X28_search_ignores_query_case (w : World) (query : string) :
  faults w = [] ->
  exists w1 w2 found,
    search query w = (Resolved found, w1) /\
    search (Js.toLowerCase query) w = (Resolved found, w2).
Proof.
  intros quiet.
  destruct (getAllFiles_quiet w quiet) as (w1 & Hscan & _).
  eexists w1, w1, _. split.
  - unfold search. by rewrite rethrow_run, bind_run, Hscan.
  - unfold search. rewrite rethrow_run, bind_run, Hscan.
    cbv [mret M_ret ret]. do 2 f_equal.
    unfold searchHit. by rewrite toLowerCase_idempotent.
Qed.

Lemma X28_witness :
  faults (oneFile "/Notes/a.txt" "x") = [] /\
  exists w1 w2 found,
    search "NOTE" (oneFile "/Notes/a.txt" "x") = (Resolved found, w1) /\
    search (Js.toLowerCase "NOTE") (oneFile "/Notes/a.txt" "x")
      = (Resolved found, w2).
Proof.
  split; [reflexivity|].
  apply (X28_search_ignores_query_case (oneFile "/Notes/a.txt" "x") "NOTE").
  reflexivity.
Defined.

Lemma includes_self s : Js.includes s s = true.
Proof.
  rewrite includes_unfold. apply orb_true_iff. left.
  apply prefix_spec. exists "". induction s as [|c s IH]; [done|].
  by rewrite append_cons, <- IH.
Qed.

(** X29: on a store that does not fault, a file just written is in the
    scan of [getAllFiles] and is found by [search] for its name. *)
Theorem X29_search_finds_written_file (w : World) (path content : string) :
  faults w = [] ->
  exists w1 w2 w3 all found,
    writeFile path content w = (Resolved tt, w1) /\
    getAllFiles w1 = (Resolved all, w2) /\
    In (metadata (fileRecord (normalizePath path) content (clock w))) all /\
    search (File.name (fileRecord (normalizePath path) content (clock w))) w1
      = (Resolved found, w3) /\
    In (metadata (fileRecord (normalizePath path) content (clock w))) found.
Proof.
  intros quiet.
  destruct (writeFile_quiet w quiet path content)
    as (w1 & Hwrite & quiet1 & _ & stored).
  destruct (getAllFiles_quiet w1 quiet1) as (w2 & Hscan & _).
  assert (In (metadata (fileRecord (normalizePath path) content (clock w)))
            (map metadata (files w1))) as Hin
    by (apply in_map; rewrite stored; apply In_put).
  eexists w1, w2, w2, _, _. split; [done|]. split; [exact Hscan|].
  split; [done|]. split.
  - unfold search. by rewrite rethrow_run, bind_run, Hscan.
  - apply filter_In. split; [done|].
    unfold searchHit. apply orb_true_iff. left. apply includes_self.
Qed.

Lemma X29_witness :
  faults (fresh today) = [] /\
  exists w1 w2 w3 all found,
    writeFile "/Docs/README.md" "x" (fresh today) = (Resolved tt, w1) /\
    getAllFiles w1 = (Resolved all, w2) /\
    In (metadata (fileRecord (normalizePath "/Docs/README.md") "x"
                    (clock (fresh today)))) all /\
    search (File.name (fileRecord (normalizePath "/Docs/README.md") "x"
                         (clock (fresh today)))) w1
      = (Resolved found, w3) /\
    In (metadata (fileRecord (normalizePath "/Docs/README.md") "x"
                    (clock (fresh today)))) found.
Proof.
  split; [reflexivity|].
  apply (X29_search_finds_written_file (fresh today) "/Docs/README.md" "x").
  reflexivity.
Defined.
